(** * thumbnailgenerator: dimension snapping, mask projection and the edit route

    A shallow embedding of the parts of the repository that carry logic:
    - [getNearestValidSize] and the polling handler [POST] of the edit route,
    - the selection-to-mask code of the three editor components (the two
      versions of [ThumbnailEditor] and [ImageEditor]), from the mouse
      events to the request that is sent,
    - what the editors and the page ([Home]) do with the answers, the
      handlers of the generate route and of the saveMask route, and the
      removal of the data URL prefix.

    JavaScript numbers are IEEE 754 binary64 values; they are embedded as
    Rocq's primitive [float], whose operations are the same binary64
    operations, so that a division by zero yields an infinity or NaN exactly
    as in the source. React state is passed explicitly: a handler maps the
    state before an event to the state after it. The prediction service is
    a pair of functions that the handler calls. *)

From stdpp Require Import gmap strings.
From Stdlib Require Import ZArith List Lia Floats DecimalString DecimalNat.
From Stdlib Require Uint63.
Import ListNotations.

Local Open Scope float_scope.

(** ** JavaScript numbers *)

Module JS.

(** Conversion of an integer to the number that represents it (exact below 2^53). *)
Definition of_Z (z : Z) : float :=
  match z with
  | Z0 => 0
  | Zpos _ => of_uint63 (Uint63.of_Z z)
  | Zneg p => - of_uint63 (Uint63.of_Z (Zpos p))
  end.

Definition of_nat (n : nat) : float := of_Z (Z.of_nat n).

(** [Math.abs]. *)
Definition Math_abs (x : float) : float := abs x.

(** [Math.round]: the integer nearest to [x], ties towards +Infinity;
    NaN, the infinities and the zeros are returned unchanged. The value
    of a finite non-zero [x] is [±m * 2^e]; for [e >= 0] it is an integer
    already, otherwise [floor (x + 1/2)] is computed exactly on integers. *)
Definition Math_round (x : float) : float :=
  match Prim2SF x with
  | S754_finite s m e =>
      if (0 <=? e)%Z then x
      else
        let den := (2 ^ (- e))%Z in
        let num := if s then Zneg m else Zpos m in
        let r := ((2 * num + den) / (2 * den))%Z in
        if (r =? 0)%Z then (if s then neg_zero else zero) else of_Z r
  | _ => x
  end.

(** [Math.min] of two numbers: NaN when either is NaN. *)
Definition Math_min (a b : float) : float :=
  if is_nan a then a
  else if is_nan b then b
  else if a <? b then a
  else if b <? a then b
  else if get_sign a then a else b.

(** [Array.prototype.reduce] without an initial value: the first element
    seeds the accumulator. On an empty array JavaScript throws a
    TypeError; [dflt] stands for that case, which no caller here reaches. *)
Definition reduce {A : Type} (f : A -> A -> A) (dflt : A) (arr : list A) : A :=
  match arr with
  | [] => dflt
  | first :: rest => fold_left f rest first
  end.

(** The values that cross the JSON boundary. [JObject] stands for any
    array or object, of which only the truthiness matters here. *)
Inductive value :=
| JUndefined
| JNull
| JBool (b : bool)
| JNum (x : float)
| JStr (s : string)
| JObject.

(** ToBoolean: what [!v] and [if (v)] test. *)
Definition truthy (v : value) : bool :=
  match v with
  | JUndefined | JNull => false
  | JBool b => b
  | JNum x => negb (is_nan x || is_zero x)
  | JStr EmptyString => false
  | JStr _ => true
  | JObject => true
  end.

End JS.

(** ** The edit route: [VALID_SIZES], [getNearestValidSize] *)

Module EditRoute.

Import JS.

Record Size := { width : float; height : float }.

(** Valid sizes for the model. *)
Definition VALID_SIZES : list float :=
  [64; 128; 192; 256; 320; 384; 448; 512; 576; 640; 704; 768; 832; 896;
   960; 1024].

(** Find the nearest valid size while maintaining aspect ratio. *)
Definition getNearestValidSize (width height : float) : Size :=
  (* Find nearest valid width *)
  let nearestWidth :=
    reduce (fun prev curr =>
              if Math_abs (curr - width) <? Math_abs (prev - width)
              then curr else prev) nan VALID_SIZES in
  (* Calculate height to maintain aspect ratio *)
  let aspectRatio := height / width in
  let scaledHeight := Math_round (nearestWidth * aspectRatio) in
  (* Make sure height is also valid, if not, work backwards from height *)
  let nearestHeight :=
    reduce (fun prev curr =>
              if Math_abs (curr - scaledHeight) <? Math_abs (prev - scaledHeight)
              then curr else prev) nan VALID_SIZES in
  (* If height-based calculation gives a better fit, use that *)
  let heightBasedWidth := Math_round (nearestHeight / aspectRatio) in
  let nearestWidthFromHeight :=
    reduce (fun prev curr =>
              if Math_abs (curr - heightBasedWidth) <? Math_abs (prev - heightBasedWidth)
              then curr else prev) nan VALID_SIZES in
  (* Compare which approach maintains aspect ratio better *)
  let widthFirstError := Math_abs (scaledHeight / nearestWidth - aspectRatio) in
  let heightFirstError :=
    Math_abs (nearestHeight / nearestWidthFromHeight - aspectRatio) in
  if widthFirstError <? heightFirstError
  then {| width := nearestWidth; height := nearestHeight |}
  else {| width := nearestWidthFromHeight; height := nearestHeight |}.

(** The callback of the three [reduce] calls, for the target [t], and
    the [reduce] itself. *)
Definition closer (t prev curr : float) : float :=
  if Math_abs (curr - t) <? Math_abs (prev - t) then curr else prev.

Definition nearestValid (t : float) : float :=
  reduce (closer t) nan VALID_SIZES.

(** The local values of [getNearestValidSize] as functions of its
    arguments, named as in the source. *)
Definition nearestWidth (width height : float) : float := nearestValid width.
Definition aspectRatio (width height : float) : float := height / width.
Definition scaledHeight (width height : float) : float :=
  Math_round (nearestWidth width height * aspectRatio width height).
Definition nearestHeight (width height : float) : float :=
  nearestValid (scaledHeight width height).
Definition heightBasedWidth (width height : float) : float :=
  Math_round (nearestHeight width height / aspectRatio width height).
Definition nearestWidthFromHeight (width height : float) : float :=
  nearestValid (heightBasedWidth width height).
Definition widthFirstError (width height : float) : float :=
  Math_abs (scaledHeight width height / nearestWidth width height
            - aspectRatio width height).
Definition heightFirstError (width height : float) : float :=
  Math_abs (nearestHeight width height / nearestWidthFromHeight width height
            - aspectRatio width height).

(** The two pairs between which the function chooses. *)
Definition widthFirst (w h : float) : Size :=
  {| width := nearestWidth w h; height := nearestHeight w h |}.
Definition heightFirst (w h : float) : Size :=
  {| width := nearestWidthFromHeight w h; height := nearestHeight w h |}.

(** *** The handler [POST] *)

(** The body that [req.json()] yields. [Rejected] covers the cases in
    which the first statement of the handler throws: a body that is not
    JSON, or the JSON value [null], which cannot be destructured. Any
    other JSON value that is not an object has no fields. *)
Inductive RequestBody :=
| Rejected (message : string)
| Fields (fields : gmap string value).

Record PredictionInput := {
  version : string;
  input_prompt : string;
  input_image : value;
  input_mask : value;
  num_inference_steps : nat;
  guidance_scale : float;
  negative_prompt : string
}.

(** [result.output]: an array of values or a single value. *)
Inductive Output :=
| OutArray (items : list value)
| OutValue (v : value).

Record PollResult := {
  error : value;
  status : string;
  output : Output
}.

(** The client of the prediction service. Each call either throws an
    [Error] with a message ([inl]) or returns ([inr]). [get id n] is the
    answer to the call made after [n] earlier polls of prediction [id]. *)
Record Replicate := {
  create : PredictionInput -> string + string;
  get : string -> nat -> string + PollResult
}.

Inductive ResponseBody :=
| ErrorBody (error : string)
| ImageBody (imageUrl : value).

(** The [details] field of an error body, a stack trace, is left out. *)
Record Response := { code : nat; body : ResponseBody }.

Definition maxAttempts : nat := 60.

Section Handler.

(** How a value that is not a string prints inside a template literal. *)
Variable ToString : value -> string.
Variable replicate : Replicate.

Definition template (v : value) : string :=
  match v with
  | JStr s => s
  | _ => ToString v
  end.

Definition field (fields : gmap string value) (name : string) : value :=
  default JUndefined (fields !! name).

(** [Array.isArray(result.output) ? result.output[0] : result.output] *)
Definition firstOutput (o : Output) : value :=
  match o with
  | OutArray items => default JUndefined (head items)
  | OutValue v => v
  end.

(** The [while (attempts < maxAttempts)] loop, by recursion on
    [maxAttempts - attempts]. It ends with a thrown message or with the
    value of [resultImageUrl], which is still [null] when the bound is
    reached. The pause between two polls is not part of the model. *)
Fixpoint pollLoop (id : string) (remaining attempts : nat) : string + value :=
  match remaining with
  | O => inr JNull
  | S remaining' =>
      match get replicate id attempts with
      | inl message => inl message
      | inr result =>
          if truthy (error result) then
            inl ("Replicate error: " ++ template (error result))%string
          else if String.eqb (status result) "succeeded" then
            inr (firstOutput (output result))
          else if String.eqb (status result) "failed" then
            inl "Image generation failed"%string
          else pollLoop id remaining' (S attempts)
      end
  end.

(** The argument of [replicate.predictions.create]. *)
Definition predictionInput (prompt image mask : value) : PredictionInput :=
  {| version := "e490d072a34a94a11e9711ed5a6ba621c3fab884eda1665d9d3a282d65a21180";
     input_prompt :=
       (template prompt ++ ", highly detailed, perfect quality, 4k")%string;
     input_image := image;
     input_mask := mask;
     num_inference_steps := 30;
     guidance_scale := 7.5;
     negative_prompt :=
       "blurry, low quality, distorted, ugly, bad anatomy, bad proportions, watermark" |}.

Definition serverError (message : string) : Response :=
  {| code := 500; body := ErrorBody message |}.

Definition POST (req : RequestBody) : Response :=
  match req with
  | Rejected message => serverError message
  | Fields fields =>
      let prompt := field fields "prompt" in
      let image := field fields "image" in
      let mask := field fields "mask" in
      if negb (truthy prompt) || negb (truthy image) || negb (truthy mask) then
        {| code := 400;
           body := ErrorBody "Missing required fields (prompt, image, mask)" |}
      else
        match create replicate (predictionInput prompt image mask)
        with
        | inl message => serverError message
        | inr id =>
            match pollLoop id maxAttempts 0 with
            | inl message => serverError message
            | inr resultImageUrl =>
                if negb (truthy resultImageUrl) then
                  serverError "Timeout waiting for image generation"
                else {| code := 200; body := ImageBody resultImageUrl |}
            end
        end
  end.

End Handler.

End EditRoute.

(** ** The browser objects the editors use *)

Module Rect.
(** The result of [getBoundingClientRect], in CSS pixels. *)
Record t := { left : float; top : float; width : float; height : float }.
End Rect.

Module MouseEvent.
Record t := { clientX : float; clientY : float }.
End MouseEvent.

Module Point.
Record t := { x : float; y : float }.
End Point.

Module Selection.
Record t := { x : float; y : float; width : float; height : float }.
End Selection.

(** Decimal strings: [n.toString()] on a natural number and [parseInt] on
    a string of decimal digits. [parseInt] answers NaN ([None]) on the
    empty string; strings that are not plain digit sequences, which the
    editors never store, are answered NaN as well. *)
Module Decimal.
Definition toString (n : nat) : string :=
  NilEmpty.string_of_uint (Nat.to_uint n).
Definition parseInt (s : string) : option nat :=
  match s with
  | EmptyString => None
  | _ => option_map Nat.of_uint (NilEmpty.uint_of_string s)
  end.
End Decimal.

Module Bitmap.
Import JS.

Inductive Colour := Transparent | Black | White.

(** The pixel grid of a canvas: [height] rows of [width] pixels. *)
Record t := { width : nat; height : nat; rows : list (list Colour) }.

(** A canvas whose [width] and [height] attributes have just been set:
    the bitmap is cleared to transparent. *)
Definition create (w h : nat) : t :=
  {| width := w; height := h; rows := replicate h (replicate w Transparent) |}.

(** Whether the span that starts at [lo] and extends by [len] (to the
    left when [len] is negative) contains the centre of pixel [i]. *)
Definition covers (lo len : float) (i : nat) : bool :=
  let c := of_nat i + 0.5 in
  if len <? 0 then (lo + len <=? c) && (c <? lo)
  else (lo <=? c) && (c <? lo + len).

(** [ctx.fillStyle = style; ctx.fillRect(x, y, w, h)]. A call with a
    NaN or infinite argument paints nothing. Coverage is sampled at pixel
    centres, which is exact for integer coordinates (no anti-aliasing). *)
Definition fillRect (style : Colour) (x y w h : float) (bm : t) : t :=
  if is_finite x && is_finite y && is_finite w && is_finite h then
    {| width := width bm; height := height bm;
       rows := imap (fun j row =>
                 imap (fun i px =>
                   if covers x w i && covers y h j then style else px) row)
                 (rows bm) |}
  else bm.

Definition pixel (bm : t) (i j : nat) : option Colour :=
  match rows bm !! j with
  | Some row => row !! i
  | None => None
  end.

(** The grid has exactly [height] rows of [width] pixels. *)
Definition well_formed (bm : t) : Prop :=
  length (rows bm) = height bm /\
  Forall (fun row => length row = width bm) (rows bm).

(** A mask in the sense of the specification: black everywhere except
    the pixels [x <= i < x + w], [y <= j < y + h], which are white. *)
Definition rectangle_mask (W H x y w h : nat) : t :=
  {| width := W; height := H;
     rows := map (fun j =>
               map (fun i =>
                 if (x <=? i)%nat && (i <? x + w)%nat
                    && (y <=? j)%nat && (j <? y + h)%nat
                 then White else Black) (seq 0 W)) (seq 0 H) |}.

End Bitmap.

Module Canvas.
(** An [HTMLCanvasElement]: the bitmap size ([canvas.width],
    [canvas.height]), the rendered geometry and the two [dataset]
    entries that the editors write. *)
Record t := {
  width : nat;
  height : nat;
  boundingClientRect : Rect.t;
  offsetWidth : nat;
  offsetHeight : nat;
  originalWidth : option string;
  originalHeight : option string
}.
End Canvas.

(** What an editor hands to [fetch('/api/edit')]. *)
Module EditRequest.
(** The [image] field: a PNG export of a canvas that shows the picture
    at the given size, or the picture's URL itself. *)
Inductive Image :=
| CanvasPng (url : string) (w h : nat)
| Url (url : string).

(** [mask] is the PNG export of the mask canvas, kept as its bitmap;
    [size] holds the [width] and [height] fields when they are sent. *)
Record t := {
  prompt : string;
  image : Image;
  mask : Bitmap.t;
  size : option (nat * nat)
}.
End EditRequest.

(** How a run of [handleEdit] ends, up to the edit request. The calls of
    [getContext('2d')] are taken to succeed, as they do on a canvas that has
    no other context. *)
Inductive Outcome :=
| Skipped                      (* the guard at the top returned *)
| Threw (message : string)     (* an error was thrown and shown *)
| Sent (req : EditRequest.t).  (* the request went out *)

(** [entry || '0'] on a [dataset] entry: a missing or empty entry reads as ['0']. *)
Definition js_or_zero (entry : option string) : string :=
  match entry with
  | Some (String _ _ as s) => s
  | _ => "0"
  end.

(** ** [ThumbnailEditor], first version (ThumbnailEditor.tsx, lines 18-271) *)

Module ThumbnailEditor.
Import JS.

Record State := {
  selection : option Selection.t;
  isSelecting : bool;
  startPoint : option Point.t;
  prompt : string
}.

Definition initial : State :=
  {| selection := None; isSelecting := false; startPoint := None;
     prompt := "" |}.

(** The [img.onload] handler of the effect that loads the picture. *)
Definition onImageLoad (naturalWidth naturalHeight : nat) (canvas : Canvas.t)
  : Canvas.t :=
  {| Canvas.width := naturalWidth;
     Canvas.height := naturalHeight;
     Canvas.boundingClientRect := Canvas.boundingClientRect canvas;
     Canvas.offsetWidth := Canvas.offsetWidth canvas;
     Canvas.offsetHeight := Canvas.offsetHeight canvas;
     Canvas.originalWidth := Some (Decimal.toString naturalWidth);
     Canvas.originalHeight := Some (Decimal.toString naturalHeight) |}.

Definition getCanvasPoint (canvasRef : option Canvas.t) (e : MouseEvent.t)
  : Point.t :=
  match canvasRef with
  | None => {| Point.x := 0; Point.y := 0 |}
  | Some canvas =>
      let rect := Canvas.boundingClientRect canvas in
      let scaleX := of_nat (Canvas.width canvas) / Rect.width rect in
      let scaleY := of_nat (Canvas.height canvas) / Rect.height rect in
      {| Point.x := (MouseEvent.clientX e - Rect.left rect) * scaleX;
         Point.y := (MouseEvent.clientY e - Rect.top rect) * scaleY |}
  end.

Definition handleMouseDown (canvasRef : option Canvas.t) (e : MouseEvent.t)
    (st : State) : State :=
  {| selection := selection st;
     isSelecting := true;
     startPoint := Some (getCanvasPoint canvasRef e);
     prompt := prompt st |}.

Definition handleMouseMove (canvasRef : option Canvas.t) (e : MouseEvent.t)
    (st : State) : State :=
  match isSelecting st, startPoint st with
  | true, Some startPoint0 =>
      let currentPoint := getCanvasPoint canvasRef e in
      {| selection := Some
           {| Selection.x := Math_min (Point.x startPoint0) (Point.x currentPoint);
              Selection.y := Math_min (Point.y startPoint0) (Point.y currentPoint);
              Selection.width := Math_abs (Point.x currentPoint - Point.x startPoint0);
              Selection.height := Math_abs (Point.y currentPoint - Point.y startPoint0) |};
         isSelecting := true;
         startPoint := startPoint st;
         prompt := prompt st |}
  | _, _ => st
  end.

Definition handleMouseUp (st : State) : State :=
  {| selection := selection st; isSelecting := false; startPoint := None;
     prompt := prompt st |}.

Definition setPrompt (p : string) (st : State) : State :=
  {| selection := selection st; isSelecting := isSelecting st;
     startPoint := startPoint st; prompt := p |}.

(** [handleEdit] up to the request to [/api/edit]: the mask canvas takes
    the size of the visible canvas and the selection is painted as it is
    stored. The upload of the mask preview to [/api/saveMask], which comes
    before the request, is left out. *)
Definition handleEdit (imageUrl : string) (canvasRef : option Canvas.t)
    (st : State) : Outcome :=
  match selection st, prompt st, canvasRef with
  | Some selection0, String _ _, Some canvas =>
      let maskCanvas := Bitmap.create (Canvas.width canvas) (Canvas.height canvas) in
      let maskCanvas :=
        Bitmap.fillRect Bitmap.Black 0 0
          (of_nat (Bitmap.width maskCanvas)) (of_nat (Bitmap.height maskCanvas))
          maskCanvas in
      let maskCanvas :=
        Bitmap.fillRect Bitmap.White
          (Selection.x selection0) (Selection.y selection0)
          (Selection.width selection0) (Selection.height selection0)
          maskCanvas in
      Sent {| EditRequest.prompt := prompt st;
              EditRequest.image :=
                EditRequest.CanvasPng imageUrl (Canvas.width canvas) (Canvas.height canvas);
              EditRequest.mask := maskCanvas;
              EditRequest.size := None |}
  | _, _, _ => Skipped
  end.

End ThumbnailEditor.

(** ** [ThumbnailEditor], second version (ThumbnailEditor.tsx, lines 283-537) *)

Module ThumbnailEditor2.
Import JS.

Record State := {
  isDrawing : bool;
  startPos : Point.t;
  selection : option Selection.t;
  prompt : string
}.

Definition initial : State :=
  {| isDrawing := false; startPos := {| Point.x := 0; Point.y := 0 |};
     selection := None; prompt := "" |}.

(** The [img.onload] handler: the original dimensions are stored in the
    [dataset] and the canvas takes the picture's size. The inline style
    set for pictures wider than 800 pixels only changes the rendered
    geometry, which the canvas record takes as given. *)
Definition onImageLoad (naturalWidth naturalHeight : nat) (canvas : Canvas.t)
  : Canvas.t :=
  {| Canvas.width := naturalWidth;
     Canvas.height := naturalHeight;
     Canvas.boundingClientRect := Canvas.boundingClientRect canvas;
     Canvas.offsetWidth := Canvas.offsetWidth canvas;
     Canvas.offsetHeight := Canvas.offsetHeight canvas;
     Canvas.originalWidth := Some (Decimal.toString naturalWidth);
     Canvas.originalHeight := Some (Decimal.toString naturalHeight) |}.

(** The point computed at the top of [startDrawing] and [draw]. *)
Definition scaledPoint (canvas : Canvas.t) (e : MouseEvent.t) : Point.t :=
  let rect := Canvas.boundingClientRect canvas in
  let scaleX := of_nat (Canvas.width canvas) / Rect.width rect in
  let scaleY := of_nat (Canvas.height canvas) / Rect.height rect in
  {| Point.x := (MouseEvent.clientX e - Rect.left rect) * scaleX;
     Point.y := (MouseEvent.clientY e - Rect.top rect) * scaleY |}.

Definition startDrawing (canvasRef : option Canvas.t) (e : MouseEvent.t)
    (st : State) : State :=
  match canvasRef with
  | None => st
  | Some canvas =>
      {| isDrawing := true; startPos := scaledPoint canvas e;
         selection := selection st; prompt := prompt st |}
  end.

Definition draw (canvasRef : option Canvas.t) (e : MouseEvent.t)
    (st : State) : State :=
  match isDrawing st, canvasRef with
  | true, Some canvas =>
      let p := scaledPoint canvas e in
      let width := Point.x p - Point.x (startPos st) in
      let height := Point.y p - Point.y (startPos st) in
      {| isDrawing := true; startPos := startPos st;
         selection := Some
           {| Selection.x := Math_min (Point.x (startPos st)) (Point.x p);
              Selection.y := Math_min (Point.y (startPos st)) (Point.y p);
              Selection.width := Math_abs width;
              Selection.height := Math_abs height |};
         prompt := prompt st |}
  | _, _ => st
  end.

Definition stopDrawing (st : State) : State :=
  {| isDrawing := false; startPos := startPos st;
     selection := selection st; prompt := prompt st |}.

Definition setPrompt (p : string) (st : State) : State :=
  {| isDrawing := isDrawing st; startPos := startPos st;
     selection := selection st; prompt := p |}.

(** [parseInt(dataset.entry || '0')], with [!n] deciding the throw:
    [None] when the result is NaN or 0. *)
Definition originalDimension (entry : option string) : option nat :=
  match Decimal.parseInt (js_or_zero entry) with
  | Some (S n) => Some (S n)
  | _ => None
  end.

(** The four arguments of the white [fillRect] in [handleEdit]: the
    stored selection scaled by [original size / offset size] and rounded. *)
Definition scaledSelection (originalWidth originalHeight : nat)
    (canvas : Canvas.t) (selection0 : Selection.t) : Selection.t :=
  let scaleX := of_nat originalWidth / of_nat (Canvas.offsetWidth canvas) in
  let scaleY := of_nat originalHeight / of_nat (Canvas.offsetHeight canvas) in
  {| Selection.x := Math_round (Selection.x selection0 * scaleX);
     Selection.y := Math_round (Selection.y selection0 * scaleY);
     Selection.width := Math_round (Selection.width selection0 * scaleX);
     Selection.height := Math_round (Selection.height selection0 * scaleY) |}.

(** [handleEdit] up to the request to [/api/edit]. [imageLoads] tells
    whether the picture loads again ([img.onload]) or not ([img.onerror],
    whose rejection is not an [Error] object). *)
Definition handleEdit (imageUrl : string) (imageLoads : bool)
    (canvasRef : option Canvas.t) (st : State) : Outcome :=
  match selection st, prompt st, canvasRef with
  | Some selection0, String _ _, Some canvas =>
      match originalDimension (Canvas.originalWidth canvas),
            originalDimension (Canvas.originalHeight canvas) with
      | Some originalWidth, Some originalHeight =>
          if negb imageLoads then Threw "Something went wrong" else
          let maskCanvas := Bitmap.create originalWidth originalHeight in
          let maskCanvas :=
            Bitmap.fillRect Bitmap.Black 0 0
              (of_nat (Bitmap.width maskCanvas)) (of_nat (Bitmap.height maskCanvas))
              maskCanvas in
          let scaled := scaledSelection originalWidth originalHeight canvas selection0 in
          let maskCanvas :=
            Bitmap.fillRect Bitmap.White
              (Selection.x scaled) (Selection.y scaled)
              (Selection.width scaled) (Selection.height scaled)
              maskCanvas in
          Sent {| EditRequest.prompt := prompt st;
                  EditRequest.image :=
                    EditRequest.CanvasPng imageUrl originalWidth originalHeight;
                  EditRequest.mask := maskCanvas;
                  EditRequest.size := Some (originalWidth, originalHeight) |}
      | _, _ => Threw "Original image dimensions not found"
      end
  | _, _, _ => Skipped
  end.

End ThumbnailEditor2.

(** ** [ImageEditor] (ImageEditor.tsx) *)

Module ImageEditor.
Import JS.

Record State := {
  prompt : string;
  isDrawing : bool;
  startPos : Point.t;
  selection : option Selection.t
}.

Definition initial : State :=
  {| prompt := ""; isDrawing := false;
     startPos := {| Point.x := 0; Point.y := 0 |}; selection := None |}.

(** The [onLoad] handler of the hidden [img] element. *)
Definition onImageLoad (naturalWidth naturalHeight : nat) (canvas : Canvas.t)
  : Canvas.t :=
  {| Canvas.width := naturalWidth;
     Canvas.height := naturalHeight;
     Canvas.boundingClientRect := Canvas.boundingClientRect canvas;
     Canvas.offsetWidth := Canvas.offsetWidth canvas;
     Canvas.offsetHeight := Canvas.offsetHeight canvas;
     Canvas.originalWidth := Canvas.originalWidth canvas;
     Canvas.originalHeight := Canvas.originalHeight canvas |}.

Definition startDrawing (canvasRef : option Canvas.t) (e : MouseEvent.t)
    (st : State) : State :=
  match canvasRef with
  | None => st
  | Some canvas =>
      let rect := Canvas.boundingClientRect canvas in
      let x := MouseEvent.clientX e - Rect.left rect in
      let y := MouseEvent.clientY e - Rect.top rect in
      {| prompt := prompt st; isDrawing := true;
         startPos := {| Point.x := x; Point.y := y |}; selection := None |}
  end.

Definition draw (canvasRef : option Canvas.t) (e : MouseEvent.t)
    (st : State) : State :=
  match isDrawing st, canvasRef with
  | true, Some canvas =>
      let rect := Canvas.boundingClientRect canvas in
      let x := MouseEvent.clientX e - Rect.left rect in
      let y := MouseEvent.clientY e - Rect.top rect in
      let width := x - Point.x (startPos st) in
      let height := y - Point.y (startPos st) in
      {| prompt := prompt st; isDrawing := true; startPos := startPos st;
         selection := Some
           {| Selection.x := Math_min (Point.x (startPos st)) x;
              Selection.y := Math_min (Point.y (startPos st)) y;
              Selection.width := Math_abs width;
              Selection.height := Math_abs height |} |}
  | _, _ => st
  end.

Definition stopDrawing (st : State) : State :=
  {| prompt := prompt st; isDrawing := false; startPos := startPos st;
     selection := selection st |}.

Definition setPrompt (p : string) (st : State) : State :=
  {| prompt := p; isDrawing := isDrawing st; startPos := startPos st;
     selection := selection st |}.

(** [createMask]: [None] is the [null] it returns without a selection
    or a canvas. *)
Definition createMask (canvasRef : option Canvas.t) (st : State)
  : option Bitmap.t :=
  match selection st, canvasRef with
  | Some selection0, Some current =>
      let canvas := Bitmap.create (Canvas.width current) (Canvas.height current) in
      let canvas :=
        Bitmap.fillRect Bitmap.Black 0 0
          (of_nat (Bitmap.width canvas)) (of_nat (Bitmap.height canvas)) canvas in
      let canvas :=
        Bitmap.fillRect Bitmap.White
          (Selection.x selection0) (Selection.y selection0)
          (Selection.width selection0) (Selection.height selection0) canvas in
      Some canvas
  | _, _ => None
  end.

Definition handleEdit (imageUrl : string) (canvasRef : option Canvas.t)
    (st : State) : Outcome :=
  match selection st, prompt st with
  | Some _, String _ _ =>
      match createMask canvasRef st with
      | None => Threw "Failed to create mask"
      | Some mask =>
          Sent {| EditRequest.prompt := prompt st;
                  EditRequest.image := EditRequest.Url imageUrl;
                  EditRequest.mask := mask;
                  EditRequest.size := None |}
      end
  | _, _ => Skipped
  end.

End ImageEditor.

(** ** The editors at work

    A picture of 200 x 200 pixels shown in a canvas that is rendered at
    100 x 100 CSS pixels, and a drag of the mouse across it. *)

Module Scenario.

(** A canvas element before the picture has loaded (300 x 150 is the
    size of a fresh canvas), rendered at [w] x [h] CSS pixels with its
    corner at (8, 16) of the viewport. *)
Definition rendered (w h : nat) : Canvas.t :=
  {| Canvas.width := 300;
     Canvas.height := 150;
     Canvas.boundingClientRect :=
       {| Rect.left := 8; Rect.top := 16;
          Rect.width := JS.of_nat w; Rect.height := JS.of_nat h |};
     Canvas.offsetWidth := w;
     Canvas.offsetHeight := h;
     Canvas.originalWidth := None;
     Canvas.originalHeight := None |}.

(** The mouse at the point (x, y) of the rendered canvas. *)
Definition mouseAt (x y : float) : MouseEvent.t :=
  {| MouseEvent.clientX := 8 + x; MouseEvent.clientY := 16 + y |}.

Definition imageUrl : string := "https://replicate.delivery/out-0.webp".
Definition promptText : string := "a red balloon".

(** The canvas once the picture of size [natural] has loaded. *)
Definition canvas1 (display natural : nat * nat) : Canvas.t :=
  ThumbnailEditor.onImageLoad (fst natural) (snd natural)
    (rendered (fst display) (snd display)).
Definition canvas2 (display natural : nat * nat) : Canvas.t :=
  ThumbnailEditor2.onImageLoad (fst natural) (snd natural)
    (rendered (fst display) (snd display)).
Definition canvas3 (display natural : nat * nat) : Canvas.t :=
  ImageEditor.onImageLoad (fst natural) (snd natural)
    (rendered (fst display) (snd display)).

(** Press at [(x0, y0)], move to [(x1, y1)], release and type the
    prompt, in each of the three editors. *)
Definition drag1 (display natural : nat * nat) (x0 y0 x1 y1 : float)
  : ThumbnailEditor.State :=
  let canvas := Some (canvas1 display natural) in
  let st := ThumbnailEditor.initial in
  let st := ThumbnailEditor.handleMouseDown canvas (mouseAt x0 y0) st in
  let st := ThumbnailEditor.handleMouseMove canvas (mouseAt x1 y1) st in
  let st := ThumbnailEditor.handleMouseUp st in
  ThumbnailEditor.setPrompt promptText st.

Definition drag2 (display natural : nat * nat) (x0 y0 x1 y1 : float)
  : ThumbnailEditor2.State :=
  let canvas := Some (canvas2 display natural) in
  let st := ThumbnailEditor2.initial in
  let st := ThumbnailEditor2.startDrawing canvas (mouseAt x0 y0) st in
  let st := ThumbnailEditor2.draw canvas (mouseAt x1 y1) st in
  let st := ThumbnailEditor2.stopDrawing st in
  ThumbnailEditor2.setPrompt promptText st.

Definition drag3 (display natural : nat * nat) (x0 y0 x1 y1 : float)
  : ImageEditor.State :=
  let canvas := Some (canvas3 display natural) in
  let st := ImageEditor.initial in
  let st := ImageEditor.startDrawing canvas (mouseAt x0 y0) st in
  let st := ImageEditor.draw canvas (mouseAt x1 y1) st in
  let st := ImageEditor.stopDrawing st in
  ImageEditor.setPrompt promptText st.

(** The same, followed by a click on the apply button. *)
Definition editor1 (display natural : nat * nat) (x0 y0 x1 y1 : float) : Outcome :=
  ThumbnailEditor.handleEdit imageUrl (Some (canvas1 display natural))
    (drag1 display natural x0 y0 x1 y1).

Definition editor2 (display natural : nat * nat) (x0 y0 x1 y1 : float) : Outcome :=
  ThumbnailEditor2.handleEdit imageUrl true (Some (canvas2 display natural))
    (drag2 display natural x0 y0 x1 y1).

Definition editor3 (display natural : nat * nat) (x0 y0 x1 y1 : float) : Outcome :=
  ImageEditor.handleEdit imageUrl (Some (canvas3 display natural))
    (drag3 display natural x0 y0 x1 y1).

(** A drag in the second editor while the canvas is rendered at
    [display], applied after the canvas has collapsed to 0 x 0. *)
Definition editor2_collapsed (display natural : nat * nat) (x0 y0 x1 y1 : float)
  : Outcome :=
  ThumbnailEditor2.handleEdit imageUrl true (Some (canvas2 (0, 0)%nat natural))
    (drag2 display natural x0 y0 x1 y1).

(** The mask of the request that went out, if one did. *)
Definition sentMask (o : Outcome) : option Bitmap.t :=
  match o with
  | Sent req => Some (EditRequest.mask req)
  | _ => None
  end.

End Scenario.

(** ** The specification's reading of the mask projector *)

Module MaskSpec.

(** The mask has the given pixel dimensions. *)
Definition has_size (W H : nat) (bm : Bitmap.t) : Prop :=
  Bitmap.width bm = W /\ Bitmap.height bm = H /\ Bitmap.well_formed bm.

(** The mask canvas as all three editors build it: a bitmap of
    [W] x [H] pixels, filled black, with the rectangle [r] filled white. *)
Definition paint (W H : nat) (r : Selection.t) : Bitmap.t :=
  Bitmap.fillRect Bitmap.White
    (Selection.x r) (Selection.y r) (Selection.width r) (Selection.height r)
    (Bitmap.fillRect Bitmap.Black 0 0 (JS.of_nat W) (JS.of_nat H)
       (Bitmap.create W H)).

(** Whether [fillRect] with the rectangle [r] paints the pixel [(i, j)]. *)
Definition paints (r : Selection.t) (i j : nat) : bool :=
  is_finite (Selection.x r) && is_finite (Selection.y r)
  && is_finite (Selection.width r) && is_finite (Selection.height r)
  && Bitmap.covers (Selection.x r) (Selection.width r) i
  && Bitmap.covers (Selection.y r) (Selection.height r) j.

(** A rectangle lies within [[0, W] x [0, H]]. *)
Definition within (W H : nat) (r : Selection.t) : bool :=
  (0 <=? Selection.x r) && (0 <=? Selection.y r)
  && (Selection.x r + Selection.width r <=? JS.of_nat W)
  && (Selection.y r + Selection.height r <=? JS.of_nat H).

End MaskSpec.

(** ** The specification's reading of the snapper

    Definitions that follow the words of the specification, for comparison
    with [getNearestValidSize]. *)

Module SnapSpec.
Import JS EditRoute.

(** [v] is a lattice value at minimal distance from [t]. *)
Definition nearest_to (t v : float) : Prop :=
  In v VALID_SIZES /\
  forall u, In u VALID_SIZES -> (Math_abs (u - t) <? Math_abs (v - t)) = false.

(** The aspect-ratio error of a candidate pair,
    [|candidateHeight/candidateWidth - height/width|]. *)
Definition aspectError (w h : float) (c : Size) : float :=
  Math_abs (height c / width c - h / w).

(** The height-first candidate as the specification words it: the
    lattice value nearest to the original height, and the width derived
    back from it. *)
Definition heightFirst_spec (w h : float) : Size :=
  let nearestHeight := nearestValid h in
  let widthFromHeight := Math_round (nearestHeight * w / h) in
  {| width := nearestValid widthFromHeight; height := nearestHeight |}.

(** The choice as the specification words it: the candidate of lower
    aspect-ratio error, the width-first one on a tie. *)
Definition choose_spec (w h : float) : Size :=
  if aspectError w h (heightFirst w h) <? aspectError w h (widthFirst w h)
  then heightFirst w h
  else widthFirst w h.

(** How a call ends. *)
Inductive Completion (A : Type) :=
| Returns (a : A)
| Throws (error : string).
Arguments Returns {A} a.
Arguments Throws {A} error.

(** A call of [getNearestValidSize]: its body has no [throw] and calls
    nothing that throws, so every call returns. *)
Definition call_getNearestValidSize (w h : float) : Completion Size :=
  Returns (getNearestValidSize w h).

End SnapSpec.

(** ** The specification's reading of the polling loop, and test services *)

Module PollSpec.
Import JS EditRoute.

(** A poll answer that keeps the loop going: no error payload and a
    status that is neither ['succeeded'] nor ['failed']. *)
Definition pending (r : PollResult) : Prop :=
  truthy (error r) = false /\
  status r <> "succeeded"%string /\ status r <> "failed"%string.

(** A poll answer that reports success with [url] as its output. *)
Definition succeeded_with (url : value) (r : PollResult) : Prop :=
  truthy (error r) = false /\
  status r = "succeeded"%string /\
  (output r = OutValue url \/ exists rest, output r = OutArray (url :: rest)).

Definition processing : PollResult :=
  {| error := JNull; status := "processing"; output := OutValue JNull |}.

(** A service that accepts every prediction and answers the polls with
    the listed results, then with ['processing'] for ever. *)
Definition scripted (results : list PollResult) : Replicate :=
  {| create := fun _ => inr "prediction-1"%string;
     get := fun _ n => inr (default processing (results !! n)) |}.

(** The fields of a well-formed edit request. *)
Definition wellFormed : gmap string value :=
  <["prompt"%string := JStr "a red balloon"]>
    (<["image"%string := JStr "data:image/png;base64,AAAA"]>
       (<["mask"%string := JStr "data:image/png;base64,BBBB"]> ∅)).

(** [String(v)] for the values that have a fixed spelling. *)
Definition plainToString (v : value) : string :=
  match v with
  | JUndefined => "undefined"
  | JNull => "null"
  | JBool true => "true"
  | JBool false => "false"
  | JStr s => s
  | JNum _ => "[number]"
  | JObject => "[object Object]"
  end.

(** The JSON object that an editor's request becomes on the wire.
    [imageData] and [toDataURL] stand for the encoders of the browser. *)
Definition wire (imageData : EditRequest.Image -> string)
    (toDataURL : Bitmap.t -> string) (req : EditRequest.t)
  : gmap string value :=
  let base : gmap string value :=
    <["prompt"%string := JStr (EditRequest.prompt req)]>
      (<["image"%string := JStr (imageData (EditRequest.image req))]>
         (<["mask"%string := JStr (toDataURL (EditRequest.mask req))]> ∅)) in
  match EditRequest.size req with
  | Some (w, h) =>
      <["width"%string := JNum (of_nat w)]>
        (<["height"%string := JNum (of_nat h)]> base)
  | None => base
  end.

(** The request without its [width] and [height] fields. *)
Definition withoutSize (req : EditRequest.t) : EditRequest.t :=
  {| EditRequest.prompt := EditRequest.prompt req;
     EditRequest.image := EditRequest.image req;
     EditRequest.mask := EditRequest.mask req;
     EditRequest.size := None |}.

End PollSpec.

(** The values that are neither finite numbers: the two infinities and NaN. *)
Definition nonfinite (x : float) : Prop :=
  x = infinity \/ x = neg_infinity \/ x = nan.

(** Two floats are told apart by their decoded form. *)
Ltac float_neq H :=
  apply (f_equal Prim2SF) in H; vm_compute in H; discriminate H.

(** Closes a goal [x = a \/ x = b \/ x = c] from the decoded form [H] of [x]. *)
Ltac decode H :=
  first [ left; apply Prim2SF_inj; exact H
        | right; left; apply Prim2SF_inj; exact H
        | right; right; apply Prim2SF_inj; exact H ].
(** ** Snapping of whole pixel sizes

    A closed form of the snap for whole numbers, and a test for equal sizes. *)

Module SnapInteger.
Import JS EditRoute.

(** The position (1 to 16) in [VALID_SIZES] of the value nearest to the
    whole number [n], the lower one when [n] lies midway between two. *)
Definition latticeIndex (n : nat) : nat :=
  Nat.min 16 (Nat.max 1 ((n + 31) / 64)).

Definition nearestLattice (n : nat) : float := of_nat (64 * latticeIndex n).

Definition same_size (a b : Size) : bool :=
  Leibniz.eqb (width a) (width b) && Leibniz.eqb (height a) (height b).

End SnapInteger.

(** ** Sequences of events in the editors *)

Module EditorTrace.

(** What the user does to an editor: press, move and release the mouse
    over the canvas (leaving the canvas counts as a release), type a prompt,
    click Cancel. Each event comes with the canvas reference of its moment. *)
Inductive Event :=
| Press (e : MouseEvent.t)
| Move (e : MouseEvent.t)
| Release
| Typed (p : string)
| Cancel.

(** The first [ThumbnailEditor]; its Cancel button clears the selection. *)
Definition step1 (st : ThumbnailEditor.State) (ev : option Canvas.t * Event)
  : ThumbnailEditor.State :=
  match snd ev with
  | Press e => ThumbnailEditor.handleMouseDown (fst ev) e st
  | Move e => ThumbnailEditor.handleMouseMove (fst ev) e st
  | Release => ThumbnailEditor.handleMouseUp st
  | Typed p => ThumbnailEditor.setPrompt p st
  | Cancel =>
      {| ThumbnailEditor.selection := None;
         ThumbnailEditor.isSelecting := ThumbnailEditor.isSelecting st;
         ThumbnailEditor.startPoint := ThumbnailEditor.startPoint st;
         ThumbnailEditor.prompt := ThumbnailEditor.prompt st |}
  end.

(** The second [ThumbnailEditor]; its Cancel button only calls [onCancel]. *)
Definition step2 (st : ThumbnailEditor2.State) (ev : option Canvas.t * Event)
  : ThumbnailEditor2.State :=
  match snd ev with
  | Press e => ThumbnailEditor2.startDrawing (fst ev) e st
  | Move e => ThumbnailEditor2.draw (fst ev) e st
  | Release => ThumbnailEditor2.stopDrawing st
  | Typed p => ThumbnailEditor2.setPrompt p st
  | Cancel => st
  end.

(** [ImageEditor], which has no Cancel button. *)
Definition step3 (st : ImageEditor.State) (ev : option Canvas.t * Event)
  : ImageEditor.State :=
  match snd ev with
  | Press e => ImageEditor.startDrawing (fst ev) e st
  | Move e => ImageEditor.draw (fst ev) e st
  | Release => ImageEditor.stopDrawing st
  | Typed p => ImageEditor.setPrompt p st
  | Cancel => st
  end.

Definition run1 (events : list (option Canvas.t * Event)) : ThumbnailEditor.State :=
  fold_left step1 events ThumbnailEditor.initial.
Definition run2 (events : list (option Canvas.t * Event)) : ThumbnailEditor2.State :=
  fold_left step2 events ThumbnailEditor2.initial.
Definition run3 (events : list (option Canvas.t * Event)) : ImageEditor.State :=
  fold_left step3 events ImageEditor.initial.

(** A selection whose width and height are not negative. *)
Definition not_negative (selection : option Selection.t) : Prop :=
  forall sel, selection = Some sel ->
    (Selection.width sel <? 0) = false /\ (Selection.height sel <? 0) = false.

End EditorTrace.

(** ** Data URLs: [s.replace(/^data:image\/\w+;base64,/, '')]

    The replacement made by [saveBase64Image] of the edit route and by the
    handler of the saveMask route. *)

Module DataUrl.

(** The class [\w]: letters, digits and the underscore. *)
Definition is_word (c : Ascii.ascii) : bool :=
  let n := Ascii.nat_of_ascii c in
  ((48 <=? n) && (n <=? 57) || (65 <=? n) && (n <=? 90)
   || (97 <=? n) && (n <=? 122) || (n =? 95))%nat.

Fixpoint all_word (s : string) : bool :=
  match s with
  | EmptyString => true
  | String c s' => is_word c && all_word s'
  end.

(** What follows the prefix [p] in [s], if [s] starts with [p]. *)
Fixpoint after (p s : string) : option string :=
  match p, s with
  | EmptyString, _ => Some s
  | String a p', String b s' => if Ascii.eqb a b then after p' s' else None
  | String _ _, EmptyString => None
  end.

(** [s] without its longest prefix of word characters. *)
Fixpoint dropWord (s : string) : string :=
  match s with
  | String c s' => if is_word c then dropWord s' else s
  | EmptyString => EmptyString
  end.

(** The regular expression matches at the start of the string only:
    [data:image/], one or more word characters, [;base64,]. As [;] is not a
    word character, [\w+] can only stand for the whole run of word
    characters. Without a match the string is returned as it is. *)
Definition stripPrefix (s : string) : string :=
  match after "data:image/" s with
  | Some (String c _ as rest) =>
      if is_word c then
        match after ";base64," (dropWord rest) with
        | Some payload => payload
        | None => s
        end
      else s
  | _ => s
  end.

End DataUrl.

(** ** Across the network: [fetch] and JSON *)

Module Http.
Import JS.

(** How [fetch] settles: it rejects with an [Error] that carries a message
    (the network failed), or it resolves with a response. *)
Inductive Fetched (R : Type) :=
| NetworkError (message : string)
| Answered (res : R).
Arguments NetworkError {R} message.
Arguments Answered {R} res.

(** [response.ok]: the status is in the range 200-299. *)
Definition ok (status : nat) : bool :=
  ((200 <=? status) && (status <=? 299))%nat.

(** An object member after [JSON.stringify] and [JSON.parse]: a number that
    is not finite arrives as [null], a zero arrives as [0], and a member that
    is [undefined] is dropped, so that it reads as [undefined] again. *)
Definition overJSON (v : value) : value :=
  match v with
  | JNum x =>
      if is_nan x || is_infinity x then JNull
      else if is_zero x then JNum 0
      else JNum x
  | _ => v
  end.

End Http.

(** ** The generate route ([POST] of [/api/generate]) *)

Module GenerateRoute.
Import JS.

Record PredictionInput := {
  model : string;
  input_prompt : string;
  go_fast : bool;
  megapixels : string;
  num_outputs : nat;
  aspect_ratio : string;
  output_format : string;
  output_quality : nat;
  num_inference_steps : nat
}.

(** An element of the output: a plain value, or a [ReadableStream], of which
    only the result of [streamToString] matters: it throws ([inl]) or yields
    the text of the stream ([inr]). *)
Inductive Item :=
| Plain (v : value)
| Stream (read : string + string).

(** [output.output]: an array, a string, or a value that has no element
    [0] ([null], [undefined], a number, a boolean). *)
Inductive Output :=
| OutArray (items : list Item)
| OutString (s : string)
| OutOther.

(** The client of the prediction service: [predictions.create] and [wait]
    either throw an [Error] with a message ([inl]) or return. *)
Record Replicate := {
  create : PredictionInput -> string + string;
  wait : string -> string + Output
}.

(** The database: [connectDB] resolves ([None]) or rejects with a message,
    and [Thumbnail.create] rejects with a message or resolves with the
    [_id] of the new document. *)
Record Database := {
  connectDB : option string;
  Thumbnail_create : value -> value -> string + string
}.

Inductive ResponseBody :=
| ErrorBody (error : string)
| Generated (imageUrl : value) (id : string).

Record Response := { code : nat; body : ResponseBody }.

Section Handler.

Variable ToString : value -> string.
Variable replicate : Replicate.
Variable db : Database.

Definition predictionInput (prompt : value) : PredictionInput :=
  {| model := "black-forest-labs/flux-schnell";
     input_prompt := "YouTube Thumbnail: " +:+ EditRoute.template ToString prompt;
     go_fast := true;
     megapixels := "1";
     num_outputs := 1;
     aspect_ratio := "16:9";
     output_format := "webp";
     output_quality := 80;
     num_inference_steps := 4 |}.

(** [output.output[0]]: the first element of an array, the first character
    of a string, [undefined] otherwise. *)
Definition element0 (o : Output) : Item :=
  match o with
  | OutArray items => default (Plain JUndefined) (head items)
  | OutString (String c _) => Plain (JStr (String c EmptyString))
  | OutString EmptyString => Plain JUndefined
  | OutOther => Plain JUndefined
  end.

(** What [if (v)] tests: a stream is an object. *)
Definition truthyItem (i : Item) : bool :=
  match i with
  | Plain v => truthy v
  | Stream _ => true
  end.

Definition serverError (message : string) : Response :=
  {| code := 500; body := ErrorBody message |}.

(** The handler. Beside the response it yields the arguments of the call of
    [Thumbnail.create] that resolved, if there was one. *)
Definition POST (req : EditRoute.RequestBody) : Response * option (value * value) :=
  match req with
  | EditRoute.Rejected message => (serverError message, None)
  | EditRoute.Fields fields =>
      let prompt := EditRoute.field fields "prompt" in
      if negb (truthy prompt) then
        ({| code := 400; body := ErrorBody "Prompt is required" |}, None)
      else
        match create replicate (predictionInput prompt) with
        | inl message => (serverError message, None)
        | inr prediction =>
            match wait replicate prediction with
            | inl message => (serverError message, None)
            | inr output =>
                if truthyItem (element0 output) then
                  match
                    match element0 output with
                    | Stream (inl message) => inl message
                    | Stream (inr text) => inr (JStr text)
                    | Plain v => inr v
                    end
                  with
                  | inl message => (serverError message, None)
                  | inr imageUrl =>
                      match connectDB db with
                      | Some message => (serverError message, None)
                      | None =>
                          match Thumbnail_create db prompt imageUrl with
                          | inl message => (serverError message, None)
                          | inr id =>
                              ({| code := 200; body := Generated imageUrl id |},
                               Some (prompt, imageUrl))
                          end
                      end
                  end
                else
                  (serverError "Invalid response format from image generation service",
                   None)
            end
        end
  end.

End Handler.

End GenerateRoute.

(** ** What the editors do with the answer of [/api/edit] *)

Module EditResponse.
Import JS EditRoute Http.

(** How [handleEdit] ends after the request: an error is shown
    ([setError]) or [onEdit] is called with the new URL. *)
Inductive Result :=
| Failed (message : string)
| Edited (imageUrl : value).

(** The members [error] and [imageUrl] of the parsed response body. *)
Definition errorField (b : ResponseBody) : value :=
  match b with
  | ErrorBody error => JStr error
  | ImageBody _ => JUndefined
  end.

Definition imageUrlField (b : ResponseBody) : value :=
  match b with
  | ErrorBody _ => JUndefined
  | ImageBody imageUrl => overJSON imageUrl
  end.

(** [new Error(v || fallback).message], for a member [v] that is a string
    or [undefined]. *)
Definition messageOr (v : value) (fallback : string) : string :=
  match v with
  | JStr (String _ _ as s) => s
  | _ => fallback
  end.

(** Both versions of [ThumbnailEditor] (ThumbnailEditor.tsx, lines 190-207
    and 473-486). *)
Definition ThumbnailEditor_received (fetched : Fetched Response) : Result :=
  match fetched with
  | NetworkError message => Failed message
  | Answered response =>
      if negb (ok (code response)) then
        Failed (messageOr (errorField (body response))
                  ("Failed to edit image: " +:+ Decimal.toString (code response)))
      else
        let imageUrl := imageUrlField (body response) in
        if negb (truthy imageUrl) then Failed "No image URL received from server"
        else Edited imageUrl
  end.

(** [ImageEditor] (ImageEditor.tsx, lines 112-120). *)
Definition ImageEditor_received (fetched : Fetched Response) : Result :=
  match fetched with
  | NetworkError message => Failed message
  | Answered response =>
      if negb (ok (code response)) then
        Failed (messageOr (errorField (body response)) "Failed to edit image")
      else Edited (imageUrlField (body response))
  end.

End EditResponse.

(** ** The page ([Home], app/page.tsx) *)

Module Home.
Import JS Http.

Record State := {
  loading : bool;
  prompt : string;
  generatedImage : value;
  isEditing : bool;
  error : option string
}.

Definition initial : State :=
  {| loading := false; prompt := ""; generatedImage := JNull;
     isEditing := false; error := None |}.

(** The body of the request to [/api/generate]. *)
Definition generateRequest (st : State) : EditRoute.RequestBody :=
  EditRoute.Fields {[ "prompt"%string := JStr (prompt st) ]}.

(** [generateThumbnail], from the answer of [fetch] on. *)
Definition generateThumbnail (fetched : Fetched GenerateRoute.Response)
    (st : State) : State :=
  match fetched with
  | NetworkError message =>
      {| loading := false; prompt := prompt st;
         generatedImage := generatedImage st; isEditing := isEditing st;
         error := Some message |}
  | Answered response =>
      if negb (ok (GenerateRoute.code response)) then
        {| loading := false; prompt := prompt st;
           generatedImage := generatedImage st; isEditing := isEditing st;
           error :=
             Some (match GenerateRoute.body response with
                   | GenerateRoute.ErrorBody (String _ _ as message) => message
                   | _ => "Failed to generate thumbnail"
                   end) |}
      else
        {| loading := false; prompt := prompt st;
           generatedImage :=
             match GenerateRoute.body response with
             | GenerateRoute.Generated imageUrl _ => overJSON imageUrl
             | GenerateRoute.ErrorBody _ => JUndefined
             end;
           isEditing := isEditing st;
           error := None |}
  end.

Definition handleEditedImage (editedImageUrl : value) (st : State) : State :=
  {| loading := loading st; prompt := prompt st;
     generatedImage := editedImageUrl; isEditing := false;
     error := error st |}.

End Home.

(** ** An edit from the click on the button to the page *)

Module EditSession.
Import JS EditRoute Http EditResponse.

Section Session.

Variable ToString : value -> string.
Variable replicate : Replicate.
(** The encoders of the browser: the PNG export of a canvas that shows a
    picture, and of a mask. *)
Variable toPng : string -> nat -> nat -> string.
Variable toDataURL : Bitmap.t -> string.

(** The [image] member of the request: the export of the canvas, or the URL
    of the picture as [ImageEditor] sends it. *)
Definition imageData (image : EditRequest.Image) : string :=
  match image with
  | EditRequest.CanvasPng url w h => toPng url w h
  | EditRequest.Url url => url
  end.

(** A run of [handleEdit] against the handler of the edit route, on a
    network that works. [received] is the editor's handling of the answer;
    [shown] is the error that the editor displays. *)
Definition submit (received : Fetched Response -> Result) (outcome : Outcome)
    (shown : option string) (home : Home.State) : option string * Home.State :=
  match outcome with
  | Skipped => (shown, home)
  | Threw message => (Some message, home)
  | Sent req =>
      let response :=
        POST ToString replicate (Fields (PollSpec.wire imageData toDataURL req)) in
      match received (Answered response) with
      | Failed message => (Some message, home)
      | Edited imageUrl => (None, Home.handleEditedImage imageUrl home)
      end
  end.

End Session.

End EditSession.

(** ** The saveMask route ([POST] of [/api/saveMask]) *)

Module SaveMaskRoute.
Import JS.

Inductive ResponseBody :=
| ErrorBody (error : string)
| Saved (path : string).

(** The [details] field of an error body, a stack trace, is left out, and so
    is [success: true]. *)
Record Response := { code : nat; body : ResponseBody }.

Section Handler.

Variable ToString : value -> string.
(** [Buffer.from(text, 'base64')] *)
Variable Buffer : Type.
Variable Buffer_from : string -> Buffer.
(** [process.cwd()], [path.join] and [writeFile], which resolves ([None])
    or rejects with a message. *)
Variable cwd : string.
Variable join : string -> string -> string.
Variable writeFile : string -> Buffer -> option string.

Definition serverError (message : string) : Response :=
  {| code := 500; body := ErrorBody message |}.

(** The handler. Beside the response it yields the arguments of the call
    of [writeFile], if it came to that. A [maskData] that is truthy and not a
    string has no method [replace]: the call throws a TypeError. *)
Definition POST (req : EditRoute.RequestBody) : Response * option (string * Buffer) :=
  match req with
  | EditRoute.Rejected message => (serverError message, None)
  | EditRoute.Fields fields =>
      let maskData := EditRoute.field fields "maskData" in
      let timestamp := EditRoute.field fields "timestamp" in
      if negb (truthy maskData) then
        ({| code := 400; body := ErrorBody "Missing mask data" |}, None)
      else
        match maskData with
        | JStr s =>
            let base64Data := DataUrl.stripPrefix s in
            let buffer := Buffer_from base64Data in
            let filename :=
              "mask_preview_" +:+ EditRoute.template ToString timestamp +:+ ".png" in
            let publicPath := join cwd "public" in
            let filePath := join publicPath filename in
            match writeFile filePath buffer with
            | Some message => (serverError message, Some (filePath, buffer))
            | None =>
                ({| code := 200; body := Saved ("/" +:+ filename) |},
                 Some (filePath, buffer))
            end
        | _ => (serverError "maskData.replace is not a function", None)
        end
  end.

End Handler.

End SaveMaskRoute.

(** ** More test services and scenarios *)

Module TestServices.
Import JS EditRoute.

(** A service whose [create] throws. *)
Definition refusing (message : string) : Replicate :=
  {| create := fun _ => inl message;
     get := fun _ _ => inr PollSpec.processing |}.

(** A service that answers [n] polls with ['processing'] and the next one
    with ['succeeded'] and the output [[out]]. *)
Definition succeedsAt (n : nat) (out : value) : Replicate :=
  PollSpec.scripted
    (replicate n PollSpec.processing ++
     [ {| error := JNull; status := "succeeded"; output := OutArray [out] |} ]).

(** Encoders that give the same PNG for every canvas. *)
Definition toPng (url : string) (w h : nat) : string :=
  "data:image/png;base64,AAAA".
Definition toDataURL (bm : Bitmap.t) : string :=
  "data:image/png;base64,BBBB".

(** The page while the editor is open on a generated picture. *)
Definition editing : Home.State :=
  {| Home.loading := false; Home.prompt := "a red balloon";
     Home.generatedImage := JStr Scenario.imageUrl; Home.isEditing := true;
     Home.error := None |}.

(** A generation service that reports its output as one string. *)
Definition textService (text : string) : GenerateRoute.Replicate :=
  {| GenerateRoute.create := fun _ => inr "prediction-1"%string;
     GenerateRoute.wait := fun _ => inr (GenerateRoute.OutString text) |}.

(** A database that stores every thumbnail. *)
Definition acceptingDb : GenerateRoute.Database :=
  {| GenerateRoute.connectDB := None;
     GenerateRoute.Thumbnail_create := fun _ _ => inr "65f1c0ffee"%string |}.

End TestServices.

(** * Properties *)

(** ** Facts about binary64 comparison and division *)

Import JS EditRoute SnapSpec.

Lemma SFltb_irrefl (a : spec_float) : SFltb a a = false.
Proof.
  unfold SFltb, SFcompare.
  destruct a as [s|s| |s m e]; try destruct s; try reflexivity;
    rewrite Z.compare_refl, Pos.compare_cont_refl; reflexivity.
Qed.

Lemma SFltb_trans (a b c : spec_float) :
  SFltb a b = true -> SFltb b c = true -> SFltb a c = true.
Proof.
  unfold SFltb, SFcompare.
  destruct a as [sa|sa| |sa ma ea], b as [sb|sb| |sb mb eb],
           c as [sc|sc| |sc mc ec];
    try discriminate;
    repeat match goal with s : bool |- _ => destruct s end;
    try discriminate; try reflexivity.
  (* what remains: three finite numbers of the same sign, ordered by
     exponent and then by mantissa *)
  all: change (Pos.compare_cont Eq ma mb) with (Pos.compare ma mb);
    change (Pos.compare_cont Eq mb mc) with (Pos.compare mb mc);
    change (Pos.compare_cont Eq ma mc) with (Pos.compare ma mc);
    destruct (Z.compare_spec ea eb), (Z.compare_spec eb ec),
             (Z.compare_spec ea ec); try discriminate; try reflexivity;
      try lia;
    destruct (Pos.compare_spec ma mb), (Pos.compare_spec mb mc),
             (Pos.compare_spec ma mc); simpl; try discriminate;
      try reflexivity; lia.
Qed.

(** [<] on numbers is a strict partial order; NaN is comparable with nothing. *)
Lemma ltb_irrefl (x : float) : (x <? x) = false.
Proof. rewrite ltb_spec. apply SFltb_irrefl. Qed.

Lemma ltb_trans (x y z : float) :
  (x <? y) = true -> (y <? z) = true -> (x <? z) = true.
Proof. rewrite !ltb_spec. apply SFltb_trans. Qed.

Lemma ltb_asym (x y : float) : (x <? y) = true -> (y <? x) = false.
Proof.
  intros H. destruct (y <? x) eqn:E; [|reflexivity].
  pose proof (ltb_trans _ _ _ H E) as C. rewrite ltb_irrefl in C. discriminate.
Qed.

(** The two zeros are the only numbers that [=== 0]. *)
Lemma is_zero_inv (z : float) : is_zero z = true -> z = 0 \/ z = neg_zero.
Proof.
  unfold is_zero. rewrite eqb_spec.
  change (Prim2SF zero) with (S754_zero false).
  intros H.
  destruct (Prim2SF z) as [s|s| |s m e] eqn:E; try discriminate;
    try (destruct s; discriminate).
  destruct s; [right | left]; apply Prim2SF_inj; rewrite E; reflexivity.
Qed.

(** Division by a zero yields an infinity or NaN. *)
Lemma div_zero_r (h z : float) : is_zero z = true -> nonfinite (h / z).
Proof.
  intros Hz. pose proof (div_spec h z) as H. unfold nonfinite.
  destruct (is_zero_inv z Hz) as [-> | ->];
    [ change (Prim2SF 0) with (S754_zero false) in H
    | change (Prim2SF neg_zero) with (S754_zero true) in H ];
    destruct (Prim2SF h) as [[]|[]| |[] m e]; cbn in H; decode H.
Qed.

(** A zero divided by anything is a zero or NaN. *)
Lemma div_zero_l (z w : float) :
  is_zero z = true -> z / w = 0 \/ z / w = neg_zero \/ z / w = nan.
Proof.
  intros Hz. pose proof (div_spec z w) as H.
  destruct (is_zero_inv z Hz) as [-> | ->];
    [ change (Prim2SF 0) with (S754_zero false) in H
    | change (Prim2SF neg_zero) with (S754_zero true) in H ];
    destruct (Prim2SF w) as [[]|[]| |[] m e]; cbn in H; decode H.
Qed.

(** A product with an infinity or NaN is an infinity or NaN. *)
Lemma mul_nonfinite (a s : float) : nonfinite s -> nonfinite (a * s).
Proof.
  intros Hs. pose proof (mul_spec a s) as H. unfold nonfinite.
  destruct Hs as [-> | [-> | ->]];
    [ change (Prim2SF infinity) with (S754_infinity false) in H
    | change (Prim2SF neg_infinity) with (S754_infinity true) in H
    | change (Prim2SF nan) with S754_nan in H ];
    destruct (Prim2SF a) as [[]|[]| |[] m e]; cbn in H; decode H.
Qed.

Lemma nonfinite_not_finite (x : float) : nonfinite x -> is_finite x = false.
Proof. intros [-> | [-> | ->]]; reflexivity. Qed.

Lemma round_nonfinite (x : float) : nonfinite x -> nonfinite (Math_round x).
Proof. intros [-> | [-> | ->]]; vm_compute; auto. Qed.

(** [Math.round] on some telling arguments: ties go up, the largest
    number below 0.5 goes to 0, small negative numbers go to -0. *)
Example Math_round_examples :
  Math_round 2.5 = 3 /\ Math_round (-2.5) = -2 /\
  Math_round 0x1.fffffffffffffp-2 = 0 /\
  Math_round (-0.25) = neg_zero /\ Math_round (-0.5) = neg_zero /\
  Math_round 204.75 = 205 /\ Math_round 0x1p60 = 0x1p60 /\
  Math_round infinity = infinity /\ Math_round nan = nan.
Proof. repeat split; vm_compute; reflexivity. Qed.

(** ** The dimension snapper *)

Section Nearest.

Variable t : float.

Let d (v : float) : float := Math_abs (v - t).

(** The accumulator of the [reduce] either stays or gets strictly closer. *)
Lemma fold_closer (l : list float) (a : float) :
  let r := fold_left (closer t) l a in
  (r = a \/ (d r <? d a) = true) /\
  In r (a :: l) /\
  forall v, In v (a :: l) -> (d v <? d r) = false.
Proof.
  revert a. induction l as [|c l IH]; intros a; cbn zeta.
  - cbn [fold_left]. split; [now left|]. split; [now left|].
    intros v [<-|[]]. apply ltb_irrefl.
  - cbn [fold_left].
    destruct (IH (closer t a c)) as (Hstep & Hin & Hmin).
    set (r := fold_left (closer t) l (closer t a c)) in *.
    assert (Hacc : (closer t a c = a /\ (d c <? d a) = false) \/
                   (closer t a c = c /\ (d c <? d a) = true)).
    { unfold closer. fold (d c) (d a). destruct (d c <? d a); auto. }
    assert (Hboth : forall v, v = a \/ v = c -> (d v <? d (closer t a c)) = false).
    { intros v Hv. destruct Hacc as [[-> Hca]|[-> Hca]], Hv as [->| ->];
        auto using ltb_irrefl, ltb_asym. }
    split; [|split].
    + destruct Hacc as [[Ea Hca]|[Ec Hca]]; rewrite ?Ea, ?Ec in Hstep.
      * exact Hstep.
      * right. destruct Hstep as [->|Hr]; [exact Hca|].
        exact (ltb_trans _ _ _ Hr Hca).
    + destruct Hin as [Hin|Hin].
      * destruct Hacc as [[Ea _]|[Ec _]]; rewrite ?Ea, ?Ec in Hin;
          rewrite <- Hin; simpl; auto.
      * simpl; auto.
    + intros v [<-|[<-|Hv]].
      * destruct Hstep as [->|Hr]; [apply Hboth; now left|].
        destruct (d a <? d r) eqn:E; [|reflexivity].
        pose proof (ltb_trans _ _ _ E Hr) as C.
        rewrite (Hboth a) in C; [discriminate|now left].
      * destruct Hstep as [->|Hr]; [apply Hboth; now right|].
        destruct (d c <? d r) eqn:E; [|reflexivity].
        pose proof (ltb_trans _ _ _ E Hr) as C.
        rewrite (Hboth c) in C; [discriminate|now right].
      * apply Hmin. now right.
Qed.

Lemma nearestValid_in : In (nearestValid t) VALID_SIZES.
Proof.
  unfold nearestValid, VALID_SIZES, reduce.
  apply (fold_closer _ 64).
Qed.

Lemma nearestValid_nearest : nearest_to t (nearestValid t).
Proof.
  split; [apply nearestValid_in|].
  unfold nearestValid, VALID_SIZES, reduce.
  apply (fold_closer _ 64).
Qed.

End Nearest.

(** The function in terms of its named local values. *)
Lemma getNearestValidSize_unfold (w h : float) :
  getNearestValidSize w h =
  if widthFirstError w h <? heightFirstError w h
  then widthFirst w h
  else heightFirst w h.
Proof.
  unfold getNearestValidSize, widthFirst, heightFirst, widthFirstError,
    heightFirstError, nearestWidthFromHeight, heightBasedWidth, nearestHeight,
    scaledHeight, aspectRatio, nearestWidth, nearestValid, closer.
  cbv zeta. reflexivity.
Qed.

Lemma getNearestValidSize_cases (w h : float) :
  getNearestValidSize w h = widthFirst w h \/
  getNearestValidSize w h = heightFirst w h.
Proof.
  rewrite getNearestValidSize_unfold.
  destruct (widthFirstError w h <? heightFirstError w h); auto.
Qed.

(** Both candidates carry the same height, so the choice only decides the width. *)
Lemma getNearestValidSize_height (w h : float) :
  height (getNearestValidSize w h) = nearestHeight w h.
Proof. destruct (getNearestValidSize_cases w h) as [-> | ->]; reflexivity. Qed.

(** C5. For every pair [(w, h)] with [w > 0] and [h > 0], both components
    of [getNearestValidSize w h] are members of the size lattice
    [VALID_SIZES] = {64, 128, ..., 1024}. *)
Theorem snap_in_lattice (w h : float) :
  (0 <? w) = true -> (0 <? h) = true ->
  In (width (getNearestValidSize w h)) VALID_SIZES /\
  In (height (getNearestValidSize w h)) VALID_SIZES.
Proof.
  intros _ _.
  destruct (getNearestValidSize_cases w h) as [-> | ->]; cbn [width height widthFirst heightFirst];
    split; apply nearestValid_in.
Qed.

Lemma snap_in_lattice_witness :
  (0 <? 1000) = true /\ (0 <? 500) = true /\
  In (width (getNearestValidSize 1000 500)) VALID_SIZES /\
  In (height (getNearestValidSize 1000 500)) VALID_SIZES.
Proof.
  split; [reflexivity|]. split; [reflexivity|].
  apply (snap_in_lattice 1000 500); reflexivity.
Defined.

(** The examples of the specification. *)
Example snap_1024_1024 :
  getNearestValidSize 1024 1024 = {| width := 1024; height := 1024 |}.
Proof. vm_compute. reflexivity. Qed.

Example snap_100_100 :
  getNearestValidSize 100 100 = {| width := 128; height := 128 |}.
Proof. vm_compute. reflexivity. Qed.

Example snap_1000_500 :
  getNearestValidSize 1000 500 = {| width := 1024; height := 512 |}.
Proof. vm_compute. reflexivity. Qed.

(** C6, as the specification states it, fails: for a 160 x 100 request the
    height of the height-first candidate is 64, the lattice value nearest to
    the scaled height 80, while the lattice value nearest to the original
    height 100 is 128. *)
Lemma heightFirst_not_from_original_height :
  (0 <? 160) = true /\ (0 <? 100) = true /\
  heightFirst 160 100 = {| width := 128; height := 64 |} /\
  heightFirst_spec 160 100 = {| width := 192; height := 128 |} /\
  heightFirst 160 100 <> heightFirst_spec 160 100.
Proof.
  repeat split; try (vm_compute; reflexivity).
  intros H. apply (f_equal height) in H. vm_compute in H. float_neq H.
Qed.

(** C6, amended. The height-first candidate takes as its height the
    lattice value nearest to the width-derived scaled height
    [round (nearestWidth * (height / width))], where [nearestWidth] is the
    lattice value nearest to the requested width; its width is the lattice
    value nearest to [round (thatHeight / (height / width))]. The returned
    pair always has this height. *)
Theorem heightFirst_from_scaled_height (w h : float) :
  let c := heightFirst w h in
  nearest_to w (nearestWidth w h) /\
  scaledHeight w h = Math_round (nearestWidth w h * (h / w)) /\
  nearest_to (scaledHeight w h) (height c) /\
  nearest_to (Math_round (height c / (h / w))) (width c) /\
  height (getNearestValidSize w h) = height c.
Proof.
  cbn zeta. cbn [heightFirst width height].
  split; [apply nearestValid_nearest|].
  split; [reflexivity|].
  split; [apply nearestValid_nearest|].
  split; [apply nearestValid_nearest|].
  apply getNearestValidSize_height.
Qed.


(** In the function's own comparison a tie goes to the height-first
    candidate: for 2 x 1 both compared errors are 0 and (128, 64) is
    returned, not the width-first (64, 64). *)
Example snap_tie_2_1 :
  widthFirstError 2 1 = heightFirstError 2 1 /\
  widthFirst 2 1 = {| width := 64; height := 64 |} /\
  getNearestValidSize 2 1 = {| width := 128; height := 64 |}.
Proof. repeat split; vm_compute; reflexivity. Qed.



(** *** Zero dimensions *)

(** With a zero width the aspect ratio is infinite or NaN and the result
    is (64, 64), whatever the height. *)
Lemma snap_zero_width (w h : float) :
  is_zero w = true ->
  getNearestValidSize w h = {| width := 64; height := 64 |}.
Proof.
  intros Hw.
  rewrite getNearestValidSize_unfold.
  unfold widthFirst, heightFirst, widthFirstError,
    heightFirstError, nearestWidthFromHeight, heightBasedWidth, nearestHeight,
    scaledHeight, aspectRatio, nearestWidth.
  assert (Hn : nearestValid w = 64).
  { destruct (is_zero_inv w Hw) as [-> | ->]; vm_compute; reflexivity. }
  rewrite Hn.
  destruct (div_zero_r h w Hw) as [-> | [-> | ->]]; vm_compute; reflexivity.
Qed.

(** With a zero height the scaled height is a zero or NaN, so the
    returned height is 64; the width is a lattice value. *)
Lemma snap_zero_height (w h : float) :
  is_zero h = true ->
  height (getNearestValidSize w h) = 64.
Proof.
  intros Hh. rewrite getNearestValidSize_height.
  unfold nearestHeight, scaledHeight, aspectRatio, nearestWidth.
  pose proof (nearestValid_in w) as Hin.
  destruct (div_zero_l h w Hh) as [-> | [-> | ->]];
    unfold VALID_SIZES in Hin; cbn [In] in Hin;
    repeat (destruct Hin as [<- | Hin]; [vm_compute; reflexivity|]);
    destruct Hin.
Qed.

(** C8, as the specification states it, fails: the call with width 0 and
    height 100 throws nothing and returns (64, 64). *)
Lemma snap_zero_width_returns :
  call_getNearestValidSize 0 100 = Returns {| width := 64; height := 64 |} /\
  ~ (exists e, call_getNearestValidSize 0 100 = Throws e).
Proof.
  split; [vm_compute; reflexivity|].
  intros [e H]. discriminate H.
Qed.

(** C8, amended. A call with a zero width or a zero height throws no
    error: the division yields an infinity, a zero or NaN, and the call
    returns a pair of lattice values whose height is 64; for a zero width the
    pair is (64, 64). *)
Theorem snap_zero_dimension_returns (w h : float) :
  is_zero w = true \/ is_zero h = true ->
  exists s,
    call_getNearestValidSize w h = Returns s /\
    In (width s) VALID_SIZES /\
    height s = 64 /\
    (is_zero w = true -> width s = 64).
Proof.
  intros Hz. exists (getNearestValidSize w h).
  split; [reflexivity|]. split; [|split].
  - destruct (getNearestValidSize_cases w h) as [-> | ->]; apply nearestValid_in.
  - destruct Hz as [Hw | Hh].
    + rewrite (snap_zero_width w h Hw). reflexivity.
    + apply snap_zero_height, Hh.
  - intros Hw. rewrite (snap_zero_width w h Hw). reflexivity.
Qed.

Lemma snap_zero_dimension_returns_witness :
  exists s,
    call_getNearestValidSize 100 0 = Returns s /\
    In (width s) VALID_SIZES /\
    height s = 64 /\
    (is_zero 100 = true -> width s = 64).
Proof.
  apply (snap_zero_dimension_returns 100 0). right. reflexivity.
Defined.

Example snap_100_0 :
  getNearestValidSize 100 0 = {| width := 128; height := 64 |}.
Proof. vm_compute. reflexivity. Qed.

Example snap_0_0 :
  getNearestValidSize 0 0 = {| width := 64; height := 64 |}.
Proof. vm_compute. reflexivity. Qed.

(** ** The mask projector *)

Import Scenario MaskSpec.

(** *** Bitmaps *)

Lemma create_well_formed (W H : nat) : Bitmap.well_formed (Bitmap.create W H).
Proof.
  split; cbn.
  - apply length_replicate.
  - apply Forall_forall. intros row Hrow.
    apply list_elem_of_In, elem_of_replicate in Hrow. destruct Hrow as [-> _].
    apply length_replicate.
Qed.

Lemma fillRect_width style x y w h bm :
  Bitmap.width (Bitmap.fillRect style x y w h bm) = Bitmap.width bm.
Proof. unfold Bitmap.fillRect. destruct (_ && _); reflexivity. Qed.

Lemma fillRect_height style x y w h bm :
  Bitmap.height (Bitmap.fillRect style x y w h bm) = Bitmap.height bm.
Proof. unfold Bitmap.fillRect. destruct (_ && _); reflexivity. Qed.

Lemma fillRect_well_formed style x y w h bm :
  Bitmap.well_formed bm ->
  Bitmap.well_formed (Bitmap.fillRect style x y w h bm).
Proof.
  intros [Hrows Hcols]. unfold Bitmap.fillRect.
  destruct (_ && _); [|split; assumption].
  split; cbn.
  - rewrite length_imap. exact Hrows.
  - apply Forall_forall. intros row Hrow.
    apply list_elem_of_In, list_elem_of_lookup in Hrow. destruct Hrow as [j Hj].
    rewrite list_lookup_imap in Hj.
    destruct (Bitmap.rows bm !! j) as [row0|] eqn:E; [|discriminate].
    cbn in Hj. injection Hj as <-. rewrite length_imap.
    rewrite Forall_forall in Hcols. apply Hcols.
    apply list_elem_of_In, list_elem_of_lookup. eauto.
Qed.

(** A pixel after [fillRect]: repainted when the call paints it. *)
Lemma pixel_fillRect style x y w h bm i j :
  Bitmap.pixel (Bitmap.fillRect style x y w h bm) i j =
  (fun px =>
     if is_finite x && is_finite y && is_finite w && is_finite h
        && Bitmap.covers x w i && Bitmap.covers y h j
     then style else px) <$> Bitmap.pixel bm i j.
Proof.
  unfold Bitmap.fillRect, Bitmap.pixel.
  destruct (is_finite x && is_finite y && is_finite w && is_finite h); cbn.
  - rewrite list_lookup_imap.
    destruct (Bitmap.rows bm !! j) as [row|]; cbn; [|reflexivity].
    rewrite list_lookup_imap. reflexivity.
  - destruct (Bitmap.rows bm !! j) as [row|]; cbn; [|reflexivity].
    destruct (row !! i); reflexivity.
Qed.

Lemma pixel_create (W H i j : nat) :
  Bitmap.pixel (Bitmap.create W H) i j =
  if (i <? W)%nat && (j <? H)%nat then Some Bitmap.Transparent else None.
Proof.
  unfold Bitmap.pixel, Bitmap.create; cbn [Bitmap.rows].
  destruct (Nat.ltb_spec j H) as [Hj|Hj].
  - rewrite (lookup_replicate_2 _ _ _ Hj).
    destruct (Nat.ltb_spec i W) as [Hi|Hi]; cbn [andb].
    + apply (lookup_replicate_2 _ _ _ Hi).
    + apply lookup_ge_None_2. rewrite length_replicate. exact Hi.
  - rewrite andb_false_r.
    rewrite (lookup_ge_None_2 (replicate H _) j); [reflexivity|].
    rewrite length_replicate. exact Hj.
Qed.

(** *** The mask canvas of the editors *)

Lemma paint_has_size (W H : nat) (r : Selection.t) : has_size W H (paint W H r).
Proof.
  unfold has_size, paint.
  rewrite !fillRect_width, !fillRect_height.
  split; [reflexivity|]. split; [reflexivity|].
  apply fillRect_well_formed, fillRect_well_formed, create_well_formed.
Qed.

(** The white pixels of a mask are the pixels of the bitmap that the
    white [fillRect] paints. *)
Lemma paint_white (W H : nat) (r : Selection.t) (i j : nat) :
  Bitmap.pixel (paint W H r) i j = Some Bitmap.White <->
  (i < W)%nat /\ (j < H)%nat /\ paints r i j = true.
Proof.
  unfold paint, paints. rewrite !pixel_fillRect, pixel_create.
  destruct (Nat.ltb_spec i W) as [Hi|Hi], (Nat.ltb_spec j H) as [Hj|Hj];
    cbn [andb fmap option_fmap option_map];
    try (split; [discriminate | intros (? & ? & _); lia]).
  match goal with |- context [if ?c then Bitmap.White else _] => destruct c end.
  - split; auto.
  - split; [|intros (_ & _ & C); discriminate C].
    match goal with |- context [if ?c then Bitmap.Black else _] => destruct c end;
      discriminate.
Qed.

Lemma editor1_mask url canvas st req :
  ThumbnailEditor.handleEdit url (Some canvas) st = Sent req ->
  exists sel,
    ThumbnailEditor.selection st = Some sel /\
    EditRequest.mask req = paint (Canvas.width canvas) (Canvas.height canvas) sel.
Proof.
  unfold ThumbnailEditor.handleEdit.
  destruct (ThumbnailEditor.selection st) as [sel|]; [|discriminate].
  destruct (ThumbnailEditor.prompt st); [discriminate|].
  intros [= <-]. exists sel. split; reflexivity.
Qed.

Lemma editor2_mask url loads canvas st req :
  ThumbnailEditor2.handleEdit url loads (Some canvas) st = Sent req ->
  exists sel W H,
    ThumbnailEditor2.selection st = Some sel /\
    ThumbnailEditor2.originalDimension (Canvas.originalWidth canvas) = Some W /\
    ThumbnailEditor2.originalDimension (Canvas.originalHeight canvas) = Some H /\
    EditRequest.mask req = paint W H (ThumbnailEditor2.scaledSelection W H canvas sel).
Proof.
  unfold ThumbnailEditor2.handleEdit.
  destruct (ThumbnailEditor2.selection st) as [sel|]; [|discriminate].
  destruct (ThumbnailEditor2.prompt st); [discriminate|].
  destruct (ThumbnailEditor2.originalDimension (Canvas.originalWidth canvas)) as [W|];
    [|discriminate].
  destruct (ThumbnailEditor2.originalDimension (Canvas.originalHeight canvas)) as [H|];
    [|discriminate].
  destruct loads; [|discriminate]. cbn [negb].
  intros [= <-]. exists sel, W, H. repeat split; reflexivity.
Qed.

Lemma editor3_mask url canvas st req :
  ImageEditor.handleEdit url (Some canvas) st = Sent req ->
  exists sel,
    ImageEditor.selection st = Some sel /\
    EditRequest.mask req = paint (Canvas.width canvas) (Canvas.height canvas) sel.
Proof.
  unfold ImageEditor.handleEdit, ImageEditor.createMask.
  destruct (ImageEditor.selection st) as [sel|]; [|discriminate].
  destruct (ImageEditor.prompt st); [discriminate|].
  intros [= <-]. exists sel. split; reflexivity.
Qed.

(** *** The stored original dimensions *)

Lemma toString_not_empty (n : nat) : Decimal.toString n <> EmptyString.
Proof.
  unfold Decimal.toString. intros E.
  assert (Hnil : Nat.to_uint n = Decimal.Nil).
  { destruct (Nat.to_uint n); try discriminate E. reflexivity. }
  pose proof (DecimalNat.Unsigned.to_of (Nat.to_uint n)) as Hn.
  rewrite DecimalNat.Unsigned.of_to, Hnil in Hn.
  symmetry in Hn. exact (DecimalFacts.unorm_nonnil _ Hn).
Qed.

Lemma parseInt_toString (n : nat) : Decimal.parseInt (Decimal.toString n) = Some n.
Proof.
  unfold Decimal.parseInt.
  destruct (Decimal.toString n) eqn:E; [destruct (toString_not_empty n E)|].
  rewrite <- E. unfold Decimal.toString.
  rewrite NilEmpty.usu. cbn. rewrite DecimalNat.Unsigned.of_to. reflexivity.
Qed.

(** What [handleEdit] reads back from the [dataset]: the natural size, or
    nothing when it is 0. *)
Lemma originalDimension_toString (n : nat) :
  ThumbnailEditor2.originalDimension (Some (Decimal.toString n)) =
  match n with O => None | S _ => Some n end.
Proof.
  unfold ThumbnailEditor2.originalDimension, js_or_zero.
  destruct (Decimal.toString n) eqn:E; [destruct (toString_not_empty n E)|].
  rewrite <- E, parseInt_toString. destruct n; reflexivity.
Qed.


(** The requests of C2 do go out: with a selection and a prompt each
    editor sends its request (the second one needs a picture of non-zero
    size that loads again). *)
Lemma editors_send (W H : nat) (canvas : Canvas.t) (url : string)
    (sel : Selection.t) (p : string) :
  p <> EmptyString ->
  (exists req,
     ThumbnailEditor.handleEdit url (Some (ThumbnailEditor.onImageLoad W H canvas))
       {| ThumbnailEditor.selection := Some sel; ThumbnailEditor.isSelecting := false;
          ThumbnailEditor.startPoint := None; ThumbnailEditor.prompt := p |}
     = Sent req) /\
  (W <> O -> H <> O ->
   exists req,
     ThumbnailEditor2.handleEdit url true
       (Some (ThumbnailEditor2.onImageLoad W H canvas))
       {| ThumbnailEditor2.isDrawing := false;
          ThumbnailEditor2.startPos := {| Point.x := 0; Point.y := 0 |};
          ThumbnailEditor2.selection := Some sel; ThumbnailEditor2.prompt := p |}
     = Sent req) /\
  (exists req,
     ImageEditor.handleEdit url (Some (ImageEditor.onImageLoad W H canvas))
       {| ImageEditor.prompt := p; ImageEditor.isDrawing := false;
          ImageEditor.startPos := {| Point.x := 0; Point.y := 0 |};
          ImageEditor.selection := Some sel |}
     = Sent req).
Proof.
  intros Hp. destruct p as [|a p]; [congruence|].
  split; [|split].
  - eexists. reflexivity.
  - intros HW HH.
    unfold ThumbnailEditor2.handleEdit.
    cbn [ThumbnailEditor2.selection ThumbnailEditor2.prompt
         ThumbnailEditor2.onImageLoad Canvas.originalWidth Canvas.originalHeight].
    rewrite !originalDimension_toString.
    destruct W; [congruence|]. destruct H; [congruence|].
    eexists. reflexivity.
  - eexists. reflexivity.
Qed.


(** C1 on the three editors. The mouse is pressed at (0, 0) and dragged
    to (50, 50) on a canvas rendered at 100 x 100 that shows a picture of
    200 x 200. The first [ThumbnailEditor] scales the selection once and
    paints 100 x 100 pixels white; the second scales it in [draw] and again
    in [handleEdit] and paints all 200 x 200 pixels; [ImageEditor] does not
    scale and paints 50 x 50 pixels. *)
Theorem drag_50_of_100_on_picture_of_200 :
  sentMask (editor1 (100, 100)%nat (200, 200)%nat 0 0 50 50)
    = Some (Bitmap.rectangle_mask 200 200 0 0 100 100) /\
  sentMask (editor2 (100, 100)%nat (200, 200)%nat 0 0 50 50)
    = Some (Bitmap.rectangle_mask 200 200 0 0 200 200) /\
  sentMask (editor3 (100, 100)%nat (200, 200)%nat 0 0 50 50)
    = Some (Bitmap.rectangle_mask 200 200 0 0 50 50) /\
  Bitmap.rectangle_mask 200 200 0 0 200 200 <> Bitmap.rectangle_mask 200 200 0 0 100 100 /\
  Bitmap.rectangle_mask 200 200 0 0 50 50 <> Bitmap.rectangle_mask 200 200 0 0 100 100.
Proof.
  split; [vm_compute; reflexivity|].
  split; [vm_compute; reflexivity|].
  split; [vm_compute; reflexivity|].
  split; intros E.
  - apply (f_equal (fun m => Bitmap.pixel m 150 150)) in E.
    vm_compute in E. discriminate E.
  - apply (f_equal (fun m => Bitmap.pixel m 75 75)) in E.
    vm_compute in E. discriminate E.
Qed.

(** The selection that the drag of C1 leaves in the state of each editor,
    and the rectangle that the second editor paints from it. *)
Example drag_50_of_100_selections :
  ThumbnailEditor.selection (drag1 (100, 100)%nat (200, 200)%nat 0 0 50 50)
    = Some {| Selection.x := 0; Selection.y := 0;
              Selection.width := 100; Selection.height := 100 |} /\
  ThumbnailEditor2.selection (drag2 (100, 100)%nat (200, 200)%nat 0 0 50 50)
    = Some {| Selection.x := 0; Selection.y := 0;
              Selection.width := 100; Selection.height := 100 |} /\
  ThumbnailEditor2.scaledSelection 200 200 (canvas2 (100, 100)%nat (200, 200)%nat)
      {| Selection.x := 0; Selection.y := 0;
         Selection.width := 100; Selection.height := 100 |}
    = {| Selection.x := 0; Selection.y := 0;
         Selection.width := 200; Selection.height := 200 |} /\
  ImageEditor.selection (drag3 (100, 100)%nat (200, 200)%nat 0 0 50 50)
    = Some {| Selection.x := 0; Selection.y := 0;
              Selection.width := 50; Selection.height := 50 |}.
Proof. repeat split; vm_compute; reflexivity. Qed.

(** The scaling step of the second editor's [handleEdit] on its own maps
    (0, 0, 50, 50) to (0, 0, 100, 100); the selection it is given has been
    scaled before. *)
Example scaledSelection_50_of_100 :
  ThumbnailEditor2.scaledSelection 200 200 (canvas2 (100, 100)%nat (200, 200)%nat)
      {| Selection.x := 0; Selection.y := 0;
         Selection.width := 50; Selection.height := 50 |}
    = {| Selection.x := 0; Selection.y := 0;
         Selection.width := 100; Selection.height := 100 |}.
Proof. vm_compute. reflexivity. Qed.


(** What the bitmap keeps of the rectangle (160, 160, 100, 100): the
    pixels from 160 to 199 in both directions. *)
Example painted_rectangle_cut_by_bitmap :
  sentMask (editor2 (100, 100)%nat (200, 200)%nat 40 40 65 65)
    = Some (Bitmap.rectangle_mask 200 200 160 160 40 40).
Proof. vm_compute. reflexivity. Qed.



(** *** A canvas that is not rendered *)

(** Scaling by [size / 0] and rounding never gives a finite coordinate. *)
Lemma scaled_by_zero_display (v size z : float) :
  is_zero z = true -> is_finite (Math_round (v * (size / z))) = false.
Proof.
  intros Hz. apply nonfinite_not_finite, round_nonfinite, mul_nonfinite.
  exact (div_zero_r size z Hz).
Qed.




(** ** The handler of the edit route *)

Import PollSpec.

Section Polling.

Variable ToString : value -> string.
Variable replicate : Replicate.
Variable id : string.

Lemma pollLoop_step_pending (remaining attempts : nat) (r : PollResult) :
  get replicate id attempts = inr r -> pending r ->
  pollLoop ToString replicate id (S remaining) attempts
  = pollLoop ToString replicate id remaining (S attempts).
Proof.
  intros Hget (Herr & Hs & Hf). cbn [pollLoop]. rewrite Hget, Herr.
  apply String.eqb_neq in Hs, Hf. rewrite Hs, Hf. reflexivity.
Qed.

(** [m] pending answers in a row use up [m] attempts. *)
Lemma pollLoop_pending (m remaining attempts : nat) :
  (forall k, (attempts <= k < attempts + m)%nat ->
             exists r, get replicate id k = inr r /\ pending r) ->
  pollLoop ToString replicate id (m + remaining) attempts
  = pollLoop ToString replicate id remaining (attempts + m).
Proof.
  revert attempts. induction m as [|m IH]; intros attempts Hpending.
  - rewrite Nat.add_0_r. reflexivity.
  - destruct (Hpending attempts) as (r & Hget & Hr); [lia|].
    cbn [Nat.add]. rewrite (pollLoop_step_pending _ _ r Hget Hr).
    rewrite IH; [f_equal; lia|].
    intros k Hk. apply Hpending. lia.
Qed.

(** A successful answer ends the loop with its first output. *)
Lemma pollLoop_succeeded (remaining attempts : nat) (r : PollResult) :
  get replicate id attempts = inr r ->
  truthy (error r) = false -> status r = "succeeded"%string ->
  pollLoop ToString replicate id (S remaining) attempts
  = inr (firstOutput (output r)).
Proof.
  intros Hget Herr Hs. cbn [pollLoop]. rewrite Hget, Herr, Hs. reflexivity.
Qed.

End Polling.

Lemma POST_accepted ToString replicate (fields : gmap string value) (id : string) :
  truthy (field fields "prompt") = true ->
  truthy (field fields "image") = true ->
  truthy (field fields "mask") = true ->
  create replicate
    (predictionInput ToString (field fields "prompt") (field fields "image")
       (field fields "mask")) = inr id ->
  POST ToString replicate (Fields fields) =
  match pollLoop ToString replicate id maxAttempts 0 with
  | inl message => serverError message
  | inr resultImageUrl =>
      if negb (truthy resultImageUrl)
      then serverError "Timeout waiting for image generation"
      else {| code := 200; body := ImageBody resultImageUrl |}
  end.
Proof.
  intros Hp Hi Hm Hcreate. unfold POST. rewrite Hp, Hi, Hm, Hcreate. reflexivity.
Qed.


Lemma succeeded_with_first_output (url : value) (r : PollResult) :
  succeeded_with url r ->
  truthy (error r) = false /\ status r = "succeeded"%string /\
  firstOutput (output r) = url.
Proof.
  intros (Herr & Hs & Hout). repeat split; try assumption.
  destruct Hout as [-> | [rest ->]]; reflexivity.
Qed.



(** Sixty pending polls: the timeout of the second half of C9. *)
Example POST_times_out :
  POST plainToString (scripted []) (Fields wellFormed)
  = {| code := 500; body := ErrorBody "Timeout waiting for image generation" |}.
Proof. vm_compute. reflexivity. Qed.

(** A ['succeeded'] answer at the 61st poll is never asked for. *)
Example POST_success_out_of_reach :
  POST plainToString
    (scripted (replicate 60 processing ++
               [ {| error := JNull; status := "succeeded";
                    output := OutValue (JStr "https://replicate.delivery/out-0.png") |} ]))
    (Fields wellFormed)
  = {| code := 500; body := ErrorBody "Timeout waiting for image generation" |}.
Proof. vm_compute. reflexivity. Qed.

(** The handler reads the fields [prompt], [image] and [mask] only. *)
Lemma POST_reads_three_fields ToString replicate (b1 b2 : gmap string value) :
  b1 !! "prompt"%string = b2 !! "prompt"%string ->
  b1 !! "image"%string = b2 !! "image"%string ->
  b1 !! "mask"%string = b2 !! "mask"%string ->
  POST ToString replicate (Fields b1) = POST ToString replicate (Fields b2).
Proof.
  intros Hp Hi Hm. unfold POST, field. rewrite Hp, Hi, Hm. reflexivity.
Qed.

(** C10. The response of the edit endpoint does not depend on the [width]
    and [height] fields of the request body: two bodies that agree on every
    other field get the same response from the same service. *)
Theorem POST_ignores_width_and_height ToString replicate
    (b1 b2 : gmap string value) :
  (forall name : string,
     name <> "width"%string -> name <> "height"%string -> b1 !! name = b2 !! name) ->
  POST ToString replicate (Fields b1) = POST ToString replicate (Fields b2).
Proof.
  intros Hagree. apply POST_reads_three_fields; apply Hagree; discriminate.
Qed.

Lemma POST_ignores_width_and_height_witness :
  POST plainToString (scripted [])
    (Fields (<["width"%string := JNum 200]> (<["height"%string := JNum 200]> wellFormed)))
  = POST plainToString (scripted []) (Fields wellFormed).
Proof.
  apply POST_ignores_width_and_height.
  intros name Hw Hh.
  rewrite lookup_insert_ne by congruence.
  rewrite lookup_insert_ne by congruence.
  reflexivity.
Defined.

(** The request of the second [ThumbnailEditor], which carries [width] and
    [height], is answered as the same request without them. *)
Lemma POST_answers_editor_request ToString replicate imageData toDataURL
    (req : EditRequest.t) :
  POST ToString replicate (Fields (wire imageData toDataURL req))
  = POST ToString replicate (Fields (wire imageData toDataURL (withoutSize req))).
Proof.
  unfold wire, withoutSize. cbn [EditRequest.size EditRequest.prompt
    EditRequest.image EditRequest.mask].
  destruct (EditRequest.size req) as [[w h]|]; [|reflexivity].
  apply POST_reads_three_fields;
    rewrite lookup_insert_ne by discriminate;
    rewrite lookup_insert_ne by discriminate;
    reflexivity.
Qed.

(** * Further properties *)

(** ** The dimension snapper on its own results and on whole numbers *)

Import SnapInteger.

Lemma same_size_eq (a b : Size) : same_size a b = true -> a = b.
Proof.
  unfold same_size. intros H. apply andb_prop in H. destruct H as [Hw Hh].
  apply Leibniz.eqb_spec in Hw, Hh. destruct a, b; cbn in *; congruence.
Qed.

(** Every pair of lattice values is returned unchanged. *)
Lemma snap_fixes_lattice_pairs (a b : float) :
  In a VALID_SIZES -> In b VALID_SIZES ->
  getNearestValidSize a b = {| width := a; height := b |}.
Proof.
  intros Ha Hb.
  assert (Hall : forallb (fun a => forallb (fun b =>
            same_size (getNearestValidSize a b) {| width := a; height := b |})
            VALID_SIZES) VALID_SIZES = true) by (vm_compute; reflexivity).
  rewrite forallb_forall in Hall. specialize (Hall a Ha).
  rewrite forallb_forall in Hall. apply same_size_eq, Hall, Hb.
Qed.

(** X1. Snapping is idempotent: the result of [getNearestValidSize], fed
    back as a request, is returned unchanged, for every request. *)
Theorem snap_idempotent (w h : float) :
  getNearestValidSize (width (getNearestValidSize w h))
                      (height (getNearestValidSize w h))
  = getNearestValidSize w h.
Proof.
  rewrite snap_fixes_lattice_pairs.
  - destruct (getNearestValidSize w h); reflexivity.
  - destruct (getNearestValidSize_cases w h) as [-> | ->]; apply nearestValid_in.
  - destruct (getNearestValidSize_cases w h) as [-> | ->]; apply nearestValid_in.
Qed.

(** X2. For a whole number [n] up to 4096 the [reduce] over [VALID_SIZES]
    yields [64 * k] with [k = (n + 31) / 64] kept between 1 and 16: the
    nearest lattice value, the lower one at a midpoint such as 96, 64 for
    everything below the lattice and 1024 for everything above. *)
Theorem nearestValid_whole_number (n : nat) :
  (n <= 4096)%nat -> nearestValid (of_nat n) = nearestLattice n.
Proof.
  intros Hn.
  assert (Hall : forallb (fun n => Leibniz.eqb (nearestValid (of_nat n)) (nearestLattice n))
                   (seq 0 4097) = true) by (vm_compute; reflexivity).
  rewrite forallb_forall in Hall. apply Leibniz.eqb_spec, Hall.
  apply in_seq. lia.
Qed.

Lemma nearestValid_whole_number_witness :
  nearestValid 96 = 64 /\ nearestValid 97 = 128.
Proof.
  split.
  - exact (nearestValid_whole_number 96 ltac:(lia)).
  - exact (nearestValid_whole_number 97 ltac:(lia)).
Defined.

(** X3. A square request of whole side [n], from 1 to 4096, gets a square
    result: both sides are the lattice value nearest to [n]. *)
Theorem snap_square (n : nat) :
  (1 <= n <= 4096)%nat ->
  getNearestValidSize (of_nat n) (of_nat n)
  = {| width := nearestLattice n; height := nearestLattice n |}.
Proof.
  intros Hn.
  assert (Hall : forallb (fun n =>
            same_size (getNearestValidSize (of_nat n) (of_nat n))
              {| width := nearestLattice n; height := nearestLattice n |})
            (seq 1 4096) = true) by (vm_compute; reflexivity).
  rewrite forallb_forall in Hall. apply same_size_eq, Hall.
  apply in_seq. lia.
Qed.

Lemma snap_square_witness :
  getNearestValidSize 100 100 = {| width := 128; height := 128 |}.
Proof. exact (snap_square 100 ltac:(lia)). Defined.

(** ** The handler of the edit route: errors and bounds *)

(** X4. A request body in which [prompt], [image] or [mask] is missing or
    falsy (empty string, [null], [false], 0) is answered 400 with the fixed
    message, whatever the prediction service would do. *)
Theorem POST_missing_field ToString replicate (fields : gmap string value) :
  truthy (field fields "prompt") = false \/
  truthy (field fields "image") = false \/
  truthy (field fields "mask") = false ->
  POST ToString replicate (Fields fields)
  = {| code := 400;
       body := ErrorBody "Missing required fields (prompt, image, mask)" |}.
Proof.
  intros H. unfold POST.
  destruct H as [-> | [-> | ->]]; cbn [negb orb]; rewrite ?orb_true_r; reflexivity.
Qed.

Lemma POST_missing_field_witness :
  POST plainToString (scripted []) (Fields (delete "mask"%string wellFormed))
  = {| code := 400;
       body := ErrorBody "Missing required fields (prompt, image, mask)" |} /\
  POST plainToString (scripted [])
    (Fields (<["prompt"%string := JStr ""]> wellFormed))
  = {| code := 400;
       body := ErrorBody "Missing required fields (prompt, image, mask)" |}.
Proof.
  split; apply POST_missing_field.
  - right; right. reflexivity.
  - left. reflexivity.
Defined.

(** X5. Whatever the body and the service, the handler answers 200, 400
    or 500; a 200 response carries an [imageUrl] that is truthy, and every
    other response carries an error message. *)
Theorem POST_response_shape ToString replicate (req : RequestBody) :
  let res := POST ToString replicate req in
  (code res = 200%nat /\ exists url, body res = ImageBody url /\ truthy url = true) \/
  ((code res = 400%nat \/ code res = 500%nat) /\
   exists message, body res = ErrorBody message).
Proof.
  cbn zeta. unfold POST, serverError.
  destruct req as [message|fields]; [right; eauto|].
  destruct (negb _ || _ || _); [right; eauto|].
  destruct (create replicate _) as [message|id]; [right; eauto|].
  destruct (pollLoop ToString replicate id maxAttempts 0) as [message|url];
    [right; eauto|].
  destruct (truthy url) eqn:Hurl; cbn [negb]; [left | right]; eauto.
Qed.

Section PollBound.

Variable ToString : value -> string.
Variables r1 r2 : Replicate.
Variable id : string.

(** Two services that answer the polls below [attempts + remaining] alike
    take the loop to the same end. *)
Lemma pollLoop_agree (remaining attempts : nat) :
  (forall k, (attempts <= k < attempts + remaining)%nat -> get r1 id k = get r2 id k) ->
  pollLoop ToString r1 id remaining attempts
  = pollLoop ToString r2 id remaining attempts.
Proof.
  revert attempts. induction remaining as [|remaining IH]; intros attempts Hagree.
  - reflexivity.
  - cbn [pollLoop]. rewrite <- (Hagree attempts) by lia.
    destruct (get r1 id attempts) as [message|result]; [reflexivity|].
    destruct (truthy (error result)); [reflexivity|].
    destruct (String.eqb (status result) "succeeded"); [reflexivity|].
    destruct (String.eqb (status result) "failed"); [reflexivity|].
    apply IH. intros k Hk. apply Hagree. lia.
Qed.

End PollBound.

(** X6. The handler never looks at a 61st poll: two services that create
    predictions alike and answer the first 60 polls of every prediction
    alike get the same response to every request. *)
Theorem POST_polls_at_most_60 ToString (r1 r2 : Replicate) (req : RequestBody) :
  (forall input, create r1 input = create r2 input) ->
  (forall id k, (k < 60)%nat -> get r1 id k = get r2 id k) ->
  POST ToString r1 req = POST ToString r2 req.
Proof.
  intros Hcreate Hget. unfold POST.
  destruct req as [message|fields]; [reflexivity|].
  destruct (negb _ || _ || _); [reflexivity|].
  rewrite <- Hcreate.
  destruct (create r1 _) as [message|id]; [reflexivity|].
  rewrite (pollLoop_agree ToString r1 r2 id maxAttempts 0); [reflexivity|].
  intros k Hk. apply Hget. unfold maxAttempts in Hk. lia.
Qed.

Lemma POST_polls_at_most_60_witness :
  POST plainToString
    (scripted (replicate 60 processing ++
               [ {| error := JNull; status := "succeeded";
                    output := OutValue (JStr "https://replicate.delivery/out-0.png") |} ]))
    (Fields wellFormed)
  = POST plainToString (scripted []) (Fields wellFormed).
Proof.
  apply POST_polls_at_most_60.
  - intros input. reflexivity.
  - intros id k Hk. cbn [scripted get]. f_equal.
    rewrite lookup_app_l by (rewrite length_replicate; exact Hk).
    rewrite (lookup_replicate_2 _ _ _ Hk). reflexivity.
Defined.

(** X7. If the polls before poll N < 60 are pending and poll N reports
    ['failed'] without an error payload, the handler answers 500 with
    'Image generation failed'. *)
Theorem POST_failed ToString replicate (fields : gmap string value)
    (id : string) (N : nat) (r : PollResult) :
  truthy (field fields "prompt") = true ->
  truthy (field fields "image") = true ->
  truthy (field fields "mask") = true ->
  create replicate
    (predictionInput ToString (field fields "prompt") (field fields "image")
       (field fields "mask")) = inr id ->
  (N < 60)%nat ->
  (forall k, (k < N)%nat -> exists r', get replicate id k = inr r' /\ pending r') ->
  get replicate id N = inr r ->
  truthy (error r) = false -> status r = "failed"%string ->
  POST ToString replicate (Fields fields)
  = {| code := 500; body := ErrorBody "Image generation failed" |}.
Proof.
  intros Hp Hi Hm Hcreate HN Hpending Hget Herr Hs.
  rewrite (POST_accepted _ _ _ id Hp Hi Hm Hcreate).
  replace maxAttempts with (N + S (59 - N))%nat by (unfold maxAttempts; lia).
  rewrite pollLoop_pending by (intros k Hk; apply Hpending; lia).
  cbn [Nat.add pollLoop]. rewrite Hget, Herr, Hs. reflexivity.
Qed.

Lemma POST_failed_witness :
  POST plainToString
    (scripted [ processing;
                {| error := JNull; status := "failed"; output := OutValue JNull |} ])
    (Fields wellFormed)
  = {| code := 500; body := ErrorBody "Image generation failed" |}.
Proof.
  refine (POST_failed plainToString _ wellFormed "prediction-1" 1 _
            _ _ _ _ _ _ _ _ _); try reflexivity.
  - lia.
  - intros k Hk. exists processing.
    destruct k as [|k]; [|lia].
    split; [reflexivity | repeat split; discriminate].
Defined.

(** X8. An error payload ends the polling whatever the status says: if
    the polls before poll N < 60 are pending and poll N carries a truthy
    [error], the handler answers 500 with 'Replicate error: ' followed by
    that error, also when the status of that poll is ['succeeded']. *)
Theorem POST_error_payload ToString replicate (fields : gmap string value)
    (id : string) (N : nat) (r : PollResult) :
  truthy (field fields "prompt") = true ->
  truthy (field fields "image") = true ->
  truthy (field fields "mask") = true ->
  create replicate
    (predictionInput ToString (field fields "prompt") (field fields "image")
       (field fields "mask")) = inr id ->
  (N < 60)%nat ->
  (forall k, (k < N)%nat -> exists r', get replicate id k = inr r' /\ pending r') ->
  get replicate id N = inr r ->
  truthy (error r) = true ->
  POST ToString replicate (Fields fields)
  = {| code := 500;
       body := ErrorBody ("Replicate error: " ++ template ToString (error r)) |}.
Proof.
  intros Hp Hi Hm Hcreate HN Hpending Hget Herr.
  rewrite (POST_accepted _ _ _ id Hp Hi Hm Hcreate).
  replace maxAttempts with (N + S (59 - N))%nat by (unfold maxAttempts; lia).
  rewrite pollLoop_pending by (intros k Hk; apply Hpending; lia).
  cbn [Nat.add pollLoop]. rewrite Hget, Herr. reflexivity.
Qed.

Lemma POST_error_payload_witness :
  POST plainToString
    (scripted [ processing;
                {| error := JStr "CUDA out of memory"; status := "processing";
                   output := OutValue JNull |} ])
    (Fields wellFormed)
  = {| code := 500; body := ErrorBody "Replicate error: CUDA out of memory" |}.
Proof.
  refine (POST_error_payload plainToString _ wellFormed "prediction-1" 1
            {| error := JStr "CUDA out of memory"; status := "processing";
               output := OutValue JNull |}
            _ _ _ _ _ _ _ _); try reflexivity.
  - lia.
  - intros k Hk. exists processing.
    destruct k as [|k]; [|lia].
    split; [reflexivity | repeat split; discriminate].
Defined.

(** X9. An error thrown by the service client is answered 500 with the
    message of that error: when [create] throws, and when a poll throws after
    pending polls. *)
Theorem POST_service_throws ToString replicate (fields : gmap string value)
    (message : string) :
  truthy (field fields "prompt") = true ->
  truthy (field fields "image") = true ->
  truthy (field fields "mask") = true ->
  let input := predictionInput ToString (field fields "prompt")
                 (field fields "image") (field fields "mask") in
  (create replicate input = inl message ->
   POST ToString replicate (Fields fields)
   = {| code := 500; body := ErrorBody message |}) /\
  (forall id N,
     create replicate input = inr id ->
     (N < 60)%nat ->
     (forall k, (k < N)%nat -> exists r', get replicate id k = inr r' /\ pending r') ->
     get replicate id N = inl message ->
     POST ToString replicate (Fields fields)
     = {| code := 500; body := ErrorBody message |}).
Proof.
  intros Hp Hi Hm input. split.
  - intros Hcreate. unfold POST. rewrite Hp, Hi, Hm. cbn [negb orb].
    fold input. rewrite Hcreate. reflexivity.
  - intros id N Hcreate HN Hpending Hget.
    rewrite (POST_accepted _ _ _ id Hp Hi Hm Hcreate).
    replace maxAttempts with (N + S (59 - N))%nat by (unfold maxAttempts; lia).
    rewrite pollLoop_pending by (intros k Hk; apply Hpending; lia).
    cbn [Nat.add pollLoop]. rewrite Hget. reflexivity.
Qed.

Lemma POST_service_throws_witness :
  POST plainToString (TestServices.refusing "Invalid token")
    (Fields wellFormed)
  = {| code := 500; body := ErrorBody "Invalid token" |}.
Proof.
  refine (proj1 (POST_service_throws plainToString
                   (TestServices.refusing "Invalid token") wellFormed
                   "Invalid token" _ _ _) _); reflexivity.
Defined.

(** ** The editors over sequences of events *)

Import EditorTrace.

(** [Math.abs] never yields a negative number. *)
Lemma abs_not_negative (x : float) : (Math_abs x <? 0) = false.
Proof.
  unfold Math_abs. rewrite ltb_spec, abs_spec.
  change (Prim2SF 0) with (S754_zero false).
  destruct (Prim2SF x) as [s|s| |s m e]; reflexivity.
Qed.

Lemma step1_not_negative st ev :
  not_negative (ThumbnailEditor.selection st) ->
  not_negative (ThumbnailEditor.selection (step1 st ev)).
Proof.
  intros Hst. destruct ev as [canvasRef [e|e| |p|]]; cbn; try exact Hst.
  - unfold ThumbnailEditor.handleMouseMove.
    destruct (ThumbnailEditor.isSelecting st); [|exact Hst].
    destruct (ThumbnailEditor.startPoint st); [|exact Hst].
    intros sel [= <-]. cbn. split; apply abs_not_negative.
  - intros sel [=].
Qed.

Lemma step2_not_negative st ev :
  not_negative (ThumbnailEditor2.selection st) ->
  not_negative (ThumbnailEditor2.selection (step2 st ev)).
Proof.
  intros Hst. destruct ev as [canvasRef [e|e| |p|]]; cbn; try exact Hst.
  - unfold ThumbnailEditor2.startDrawing. destruct canvasRef; exact Hst.
  - unfold ThumbnailEditor2.draw.
    destruct (ThumbnailEditor2.isDrawing st); [|exact Hst].
    destruct canvasRef; [|exact Hst].
    intros sel [= <-]. cbn. split; apply abs_not_negative.
Qed.

Lemma step3_not_negative st ev :
  not_negative (ImageEditor.selection st) ->
  not_negative (ImageEditor.selection (step3 st ev)).
Proof.
  intros Hst. destruct ev as [canvasRef [e|e| |p|]]; cbn; try exact Hst.
  - unfold ImageEditor.startDrawing. destruct canvasRef; [|exact Hst].
    intros sel [=].
  - unfold ImageEditor.draw.
    destruct (ImageEditor.isDrawing st); [|exact Hst].
    destruct canvasRef; [|exact Hst].
    intros sel [= <-]. cbn. split; apply abs_not_negative.
Qed.

Lemma fold_left_invariant {S E : Type} (step : S -> E -> S) (P : S -> Prop) :
  (forall st ev, P st -> P (step st ev)) ->
  forall events st, P st -> P (fold_left step events st).
Proof.
  intros Hstep. induction events as [|ev events IH]; intros st Hst; cbn.
  - exact Hst.
  - apply IH, Hstep, Hst.
Qed.

(** X10. Whatever sequence of presses, moves, releases, typing and
    cancelling an editor goes through, on whatever canvas, the selection it
    holds never has a negative width or height. *)
Theorem selection_never_negative (events : list (option Canvas.t * Event)) :
  not_negative (ThumbnailEditor.selection (run1 events)) /\
  not_negative (ThumbnailEditor2.selection (run2 events)) /\
  not_negative (ImageEditor.selection (run3 events)).
Proof.
  split; [|split].
  - apply (fold_left_invariant step1
             (fun st => not_negative (ThumbnailEditor.selection st))
             step1_not_negative).
    intros sel [=].
  - apply (fold_left_invariant step2
             (fun st => not_negative (ThumbnailEditor2.selection st))
             step2_not_negative).
    intros sel [=].
  - apply (fold_left_invariant step3
             (fun st => not_negative (ImageEditor.selection st))
             step3_not_negative).
    intros sel [=].
Qed.

Lemma selection_never_negative_witness :
  exists sel,
    ThumbnailEditor2.selection
      (run2 [ (Some (canvas2 (100, 100)%nat (200, 200)%nat), Press (mouseAt 50 50));
              (Some (canvas2 (100, 100)%nat (200, 200)%nat), Move (mouseAt 10 20)) ])
    = Some sel /\
    (Selection.width sel <? 0) = false /\ (Selection.height sel <? 0) = false.
Proof.
  eexists. split; [vm_compute; reflexivity|].
  apply (proj1 (proj2 (selection_never_negative
    [ (Some (canvas2 (100, 100)%nat (200, 200)%nat), Press (mouseAt 50 50));
      (Some (canvas2 (100, 100)%nat (200, 200)%nat), Move (mouseAt 10 20)) ]))).
  vm_compute. reflexivity.
Defined.

(** *** The direction of a drag *)

(** Rounding to nearest does not look at the sign. *)
Lemma SFabs_binary_round (p : positive) (e : Z) :
  SFabs (binary_round prec emax true p e) = SFabs (binary_round prec emax false p e).
Proof.
  unfold binary_round.
  destruct (shl_align p e _) as [mz ez].
  unfold binary_round_aux.
  destruct (shr_fexp prec emax (Z.pos mz) ez loc_Exact) as [mrs' e'].
  destruct (shr_fexp prec emax _ e' loc_Exact) as [mrs'' e''].
  destruct (shr_m mrs''); try reflexivity.
  destruct (Z.leb e'' _); reflexivity.
Qed.

Lemma SFabs_binary_normalize_opp (m e : Z) :
  SFabs (binary_normalize prec emax (- m) e false)
  = SFabs (binary_normalize prec emax m e false).
Proof.
  destruct m as [|p|p]; cbn [Z.opp binary_normalize].
  - reflexivity.
  - apply SFabs_binary_round.
  - symmetry. apply SFabs_binary_round.
Qed.

Lemma SFabs_SFsub_comm (a b : spec_float) :
  SFabs (SF64sub a b) = SFabs (SF64sub b a).
Proof.
  unfold SF64sub, SFsub.
  destruct a as [sa|sa| |sa ma ea], b as [sb|sb| |sb mb eb];
    try (repeat match goal with s : bool |- _ => destruct s end; reflexivity).
  rewrite (Z.min_comm eb ea).
  rewrite <- SFabs_binary_normalize_opp. f_equal. f_equal. lia.
Qed.

(** [|a - b| = |b - a|] holds exactly on numbers. *)
Lemma abs_sub_comm (a b : float) : Math_abs (a - b) = Math_abs (b - a).
Proof.
  unfold Math_abs. apply Prim2SF_inj.
  rewrite !abs_spec, !sub_spec. apply SFabs_SFsub_comm.
Qed.

Lemma is_nan_spec (a : float) : is_nan a = true <-> Prim2SF a = S754_nan.
Proof.
  unfold is_nan. rewrite eqb_spec. unfold SFeqb, SFcompare.
  destruct (Prim2SF a) as [s|s| |s m e]; try destruct s;
    rewrite ?Z.compare_refl, ?Pos.compare_cont_refl; cbn; split; congruence.
Qed.

Lemma is_nan_inv (a : float) : is_nan a = true -> a = nan.
Proof. intros H. apply Prim2SF_inj. apply is_nan_spec in H. rewrite H. reflexivity. Qed.

(** Two numbers of which neither is below the other are the same number
    or two zeros. *)
Lemma SFltb_neither (a b : spec_float) :
  a <> S754_nan -> b <> S754_nan ->
  SFltb a b = false -> SFltb b a = false ->
  a = b \/ (exists sa sb, a = S754_zero sa /\ b = S754_zero sb).
Proof.
  unfold SFltb, SFcompare. intros Ha Hb.
  destruct a as [sa|sa| |sa ma ea], b as [sb|sb| |sb mb eb];
    try congruence;
    try (right; eauto; fail);
    repeat match goal with s : bool |- _ => destruct s end;
    try discriminate; try (left; reflexivity).
  all: change (Pos.compare_cont Eq ma mb) with (Pos.compare ma mb);
    change (Pos.compare_cont Eq mb ma) with (Pos.compare mb ma);
    destruct (Z.compare_spec ea eb), (Z.compare_spec eb ea);
      try discriminate; try lia;
    destruct (Pos.compare_spec ma mb), (Pos.compare_spec mb ma);
      cbn; try discriminate; try lia;
    intros _ _; left; congruence.
Qed.

Lemma not_lt_eq (a b : float) :
  is_nan a = false -> is_nan b = false ->
  (a <? b) = false -> (b <? a) = false ->
  a = b \/ (is_zero a = true /\ is_zero b = true).
Proof.
  intros Ha Hb. rewrite !ltb_spec. intros Hab Hba.
  destruct (SFltb_neither (Prim2SF a) (Prim2SF b)) as [E | (sa & sb & Ea & Eb)];
    try assumption.
  - intros E. apply is_nan_spec in E. congruence.
  - intros E. apply is_nan_spec in E. congruence.
  - left. apply Prim2SF_inj, E.
  - right. unfold is_zero. rewrite !eqb_spec, Ea, Eb. split; reflexivity.
Qed.

(** [Math.min] does not depend on the order of its arguments. *)
Lemma Math_min_comm (a b : float) : Math_min a b = Math_min b a.
Proof.
  unfold Math_min.
  destruct (is_nan a) eqn:Ha, (is_nan b) eqn:Hb.
  - rewrite (is_nan_inv a Ha), (is_nan_inv b Hb). reflexivity.
  - reflexivity.
  - reflexivity.
  - destruct (a <? b) eqn:Hab.
    + rewrite (ltb_asym _ _ Hab). reflexivity.
    + destruct (b <? a) eqn:Hba; [reflexivity|].
      destruct (not_lt_eq a b Ha Hb Hab Hba) as [-> | [Za Zb]]; [destruct (get_sign b); reflexivity|].
      destruct (is_zero_inv a Za) as [-> | ->], (is_zero_inv b Zb) as [-> | ->];
        reflexivity.
Qed.

(** X11. The selection does not depend on the direction of the drag:
    pressing at one point and moving to another leaves the same selection as
    pressing at the second and moving to the first, in all three editors. *)
Theorem selection_independent_of_direction
    (canvasRef : option Canvas.t) (a b : MouseEvent.t) :
  (forall st,
     ThumbnailEditor.selection
       (ThumbnailEditor.handleMouseMove canvasRef b
          (ThumbnailEditor.handleMouseDown canvasRef a st))
     = ThumbnailEditor.selection
         (ThumbnailEditor.handleMouseMove canvasRef a
            (ThumbnailEditor.handleMouseDown canvasRef b st))) /\
  (forall st,
     ThumbnailEditor2.selection
       (ThumbnailEditor2.draw canvasRef b (ThumbnailEditor2.startDrawing canvasRef a st))
     = ThumbnailEditor2.selection
         (ThumbnailEditor2.draw canvasRef a (ThumbnailEditor2.startDrawing canvasRef b st))) /\
  (forall st,
     ImageEditor.selection
       (ImageEditor.draw canvasRef b (ImageEditor.startDrawing canvasRef a st))
     = ImageEditor.selection
         (ImageEditor.draw canvasRef a (ImageEditor.startDrawing canvasRef b st))).
Proof.
  split; [|split]; intros st.
  - cbn. do 2 f_equal;
      first [apply Math_min_comm | apply abs_sub_comm].
  - destruct canvasRef as [canvas|]; [|reflexivity].
    cbn. do 2 f_equal;
      first [apply Math_min_comm | apply abs_sub_comm].
  - destruct canvasRef as [canvas|]; [|reflexivity].
    cbn. do 2 f_equal;
      first [apply Math_min_comm | apply abs_sub_comm].
Qed.

(** *** A selection without area *)

Lemma SFleb_SFltb_excl (a b : spec_float) : SFleb a b && SFltb b a = false.
Proof.
  unfold SFleb, SFltb, SFcompare.
  destruct a as [sa|sa| |sa ma ea], b as [sb|sb| |sb mb eb];
    repeat match goal with s : bool |- _ => destruct s end; try reflexivity.
  all: change (Pos.compare_cont Eq ma mb) with (Pos.compare ma mb);
    change (Pos.compare_cont Eq mb ma) with (Pos.compare mb ma);
    destruct (Z.compare_spec ea eb), (Z.compare_spec eb ea);
      try reflexivity; try lia;
    destruct (Pos.compare_spec ma mb), (Pos.compare_spec mb ma);
      cbn; try reflexivity; lia.
Qed.

(** Adding a zero does not change how a number compares. *)
Lemma SFcompare_add_zero (c x : spec_float) (s : bool) :
  SFcompare c (SF64add x (S754_zero s)) = SFcompare c x.
Proof.
  unfold SF64add, SFadd.
  destruct x as [sx|sx| |sx mx ex]; try reflexivity.
  destruct sx, s, c as [sc|sc| |sc mc ec]; reflexivity.
Qed.

Lemma covers_zero_length (lo len : float) (i : nat) :
  is_zero len = true -> Bitmap.covers lo len i = false.
Proof.
  intros Hz. unfold Bitmap.covers. cbv zeta.
  generalize (of_nat i + 0.5). intros c.
  assert (Hneg : (len <? 0) = false)
    by (destruct (is_zero_inv len Hz) as [-> | ->]; reflexivity).
  rewrite Hneg, leb_spec, ltb_spec, add_spec.
  assert (Hlen : exists s, Prim2SF len = S754_zero s)
    by (destruct (is_zero_inv len Hz) as [-> | ->]; eexists; reflexivity).
  destruct Hlen as [s ->].
  unfold SFltb at 1. rewrite SFcompare_add_zero.
  apply SFleb_SFltb_excl.
Qed.



(** *** The picture's size in the second editor *)

(** X13. In the second [ThumbnailEditor], with a selection and a prompt in
    place, [handleEdit] throws 'Original image dimensions not found' exactly
    when the loaded picture has a zero width or height; otherwise, if the
    picture loads again, the request goes out with the picture's natural size
    in its [width] and [height] fields, read back from the strings that
    [onload] stored in the [dataset]. *)
Theorem original_dimensions_round_trip (url : string) (W H : nat)
    (canvas : Canvas.t) (st : ThumbnailEditor2.State) (sel : Selection.t) :
  ThumbnailEditor2.selection st = Some sel ->
  ThumbnailEditor2.prompt st <> EmptyString ->
  let loaded := Some (ThumbnailEditor2.onImageLoad W H canvas) in
  (forall loads,
     ThumbnailEditor2.handleEdit url loads loaded st
     = Threw "Original image dimensions not found"
     <-> (W = O \/ H = O)) /\
  (W <> O -> H <> O ->
   exists req,
     ThumbnailEditor2.handleEdit url true loaded st = Sent req /\
     EditRequest.size req = Some (W, H) /\
     EditRequest.image req = EditRequest.CanvasPng url W H).
Proof.
  intros Hsel Hprompt loaded.
  assert (Hrun : forall loads,
    ThumbnailEditor2.handleEdit url loads loaded st =
    match W, H with
    | S _, S _ =>
        if negb loads then Threw "Something went wrong"
        else Sent {| EditRequest.prompt := ThumbnailEditor2.prompt st;
                     EditRequest.image := EditRequest.CanvasPng url W H;
                     EditRequest.mask :=
                       paint W H (ThumbnailEditor2.scaledSelection W H
                                    (ThumbnailEditor2.onImageLoad W H canvas) sel);
                     EditRequest.size := Some (W, H) |}
    | _, _ => Threw "Original image dimensions not found"
    end).
  { intros loads. unfold ThumbnailEditor2.handleEdit, loaded. rewrite Hsel.
    destruct (ThumbnailEditor2.prompt st) as [|c p]; [congruence|].
    cbn [ThumbnailEditor2.onImageLoad Canvas.originalWidth Canvas.originalHeight].
    rewrite !originalDimension_toString.
    destruct W; [reflexivity|]. destruct H; reflexivity. }
  split.
  - intros loads. rewrite Hrun. split.
    + destruct W; [auto|]. destruct H; [auto|].
      destruct loads; cbn [negb]; discriminate.
    + intros [-> | ->]; [reflexivity|]. destruct W; reflexivity.
  - intros HW HH. rewrite Hrun.
    destruct W; [congruence|]. destruct H; [congruence|].
    cbn [negb]. eexists. repeat split.
Qed.

Lemma original_dimensions_round_trip_witness :
  editor2 (100, 100)%nat (0, 200)%nat 0 0 50 50
  = Threw "Original image dimensions not found".
Proof.
  assert (Hsel : exists sel,
            ThumbnailEditor2.selection (drag2 (100, 100)%nat (0, 200)%nat 0 0 50 50)
            = Some sel) by (eexists; vm_compute; reflexivity).
  destruct Hsel as [sel Hsel].
  apply (proj1 (original_dimensions_round_trip imageUrl 0 200 (rendered 100 100)
                  (drag2 (100, 100)%nat (0, 200)%nat 0 0 50 50) sel Hsel
                  ltac:(vm_compute; discriminate))).
  left. reflexivity.
Defined.

(** ** Data URLs *)

Import DataUrl.

Lemma append_cons (c : Ascii.ascii) (p s : string) :
  String c p +:+ s = String c (p +:+ s).
Proof. reflexivity. Qed.

Lemma append_nil (s : string) : EmptyString +:+ s = s.
Proof. reflexivity. Qed.

Lemma after_app (p s : string) : after p (p +:+ s) = Some s.
Proof.
  induction p as [|a p IH].
  - rewrite append_nil. destruct s; reflexivity.
  - rewrite append_cons. cbn [after]. rewrite Ascii.eqb_refl. exact IH.
Qed.

Lemma after_Some (p s r : string) : after p s = Some r -> s = (p +:+ r).
Proof.
  revert s. induction p as [|a p IH]; intros s; cbn [after].
  - destruct s; intros [= <-]; reflexivity.
  - destruct s as [|b s]; [discriminate|].
    destruct (Ascii.eqb_spec a b) as [<-|]; [|discriminate].
    intros H. rewrite (IH _ H). reflexivity.
Qed.

Lemma dropWord_app (fmt rest : string) :
  all_word fmt = true -> dropWord rest = rest ->
  dropWord (fmt +:+ rest) = rest.
Proof.
  intros Hfmt Hrest. induction fmt as [|c fmt IH]; [exact Hrest|].
  rewrite append_cons. cbn [all_word dropWord] in *.
  apply andb_prop in Hfmt. destruct Hfmt as [Hc Hfmt].
  rewrite Hc. apply IH, Hfmt.
Qed.

Lemma dropWord_split (s : string) :
  exists fmt, all_word fmt = true /\ s = (fmt +:+ dropWord s).
Proof.
  induction s as [|c s (fmt & Hfmt & Hs)]; cbn [dropWord].
  - exists EmptyString. split; reflexivity.
  - destruct (is_word c) eqn:Hc.
    + exists (String c fmt). cbn [all_word]. rewrite Hc, Hfmt.
      split; [reflexivity|]. rewrite append_cons. f_equal. exact Hs.
    + exists EmptyString. split; reflexivity.
Qed.

(** The run of word characters and [;base64,] are found in front of the
    payload. *)
Lemma after_format (fmt payload : string) :
  all_word fmt = true ->
  after ";base64," (dropWord (fmt +:+ ";base64," +:+ payload)) = Some payload.
Proof.
  intros Hfmt. rewrite dropWord_app; [| exact Hfmt | reflexivity].
  apply after_app.
Qed.

Lemma stripPrefix_after (c : Ascii.ascii) (rest s : string) :
  after "data:image/" s = Some (String c rest) -> is_word c = true ->
  stripPrefix s = default s (after ";base64," (dropWord (String c rest))).
Proof.
  intros Hafter Hc. unfold stripPrefix. rewrite Hafter, Hc.
  destruct (after ";base64," _); reflexivity.
Qed.

(** X14. The replacement removes the prefix of a well-formed data URL and
    nothing else: for a format name of one or more word characters,
    [data:image/<format>;base64,<payload>] becomes [<payload>]. *)
Theorem stripPrefix_data_url (fmt payload : string) :
  fmt <> EmptyString -> all_word fmt = true ->
  stripPrefix ("data:image/" +:+ fmt +:+ ";base64," +:+ payload) = payload.
Proof.
  intros Hne Hfmt. destruct fmt as [|c fmt]; [congruence|].
  destruct (andb_prop _ _ Hfmt) as [Hc _].
  rewrite (stripPrefix_after c (fmt +:+ ";base64," +:+ payload));
    [| apply after_app | exact Hc].
  rewrite <- append_cons, after_format by exact Hfmt. reflexivity.
Qed.

Lemma stripPrefix_data_url_witness :
  stripPrefix "data:image/png;base64,iVBORw0KGgo=" = "iVBORw0KGgo="%string.
Proof.
  apply (stripPrefix_data_url "png" "iVBORw0KGgo=").
  - discriminate.
  - reflexivity.
Defined.

(** X15. The replacement never removes anything but such a prefix: its
    result is either the string itself or what follows [data:image/], a
    non-empty run of word characters and [;base64,] at the start of it. *)
Theorem stripPrefix_only_prefix (s : string) :
  stripPrefix s = s \/
  exists fmt,
    fmt <> EmptyString /\ all_word fmt = true /\
    s = ("data:image/" +:+ fmt +:+ ";base64," +:+ stripPrefix s).
Proof.
  unfold stripPrefix.
  destruct (after "data:image/" s) as [rest|] eqn:Hafter; [|now left].
  destruct rest as [|c rest]; [now left|].
  destruct (is_word c) eqn:Hc; [|now left].
  destruct (after ";base64," (dropWord (String c rest))) as [payload|] eqn:Hpay;
    [|now left].
  right.
  destruct (dropWord_split (String c rest)) as (fmt & Hfmt & Hsplit).
  exists fmt. split; [|split; [exact Hfmt|]].
  - intros ->. rewrite append_nil in Hsplit.
    rewrite <- Hsplit in Hpay. cbn [after] in Hpay.
    match type of Hpay with
    | context [Ascii.eqb ?a c] => destruct (Ascii.eqb_spec a c) as [<-|]
    end; [discriminate Hc | discriminate Hpay].
  - apply after_Some in Hafter, Hpay. rewrite Hafter, Hsplit, Hpay. reflexivity.
Qed.

(** Strings that are no image data URLs are left alone. *)
Example stripPrefix_other_strings :
  stripPrefix "data:text/plain;base64,aGk=" = "data:text/plain;base64,aGk="%string /\
  stripPrefix "data:image/;base64,aGk=" = "data:image/;base64,aGk="%string /\
  stripPrefix "data:image/svg+xml;base64,aGk=" = "data:image/svg+xml;base64,aGk="%string /\
  stripPrefix " data:image/png;base64,aGk=" = " data:image/png;base64,aGk="%string.
Proof. repeat split; reflexivity. Qed.

(** ** The editors and the answer of the edit route *)

Import Http EditResponse EditSession.

Lemma append_not_empty (a b : string) : b <> EmptyString -> a +:+ b <> EmptyString.
Proof.
  intros Hb. destruct a; [exact Hb | discriminate].
Qed.

Lemma messageOr_not_empty (v : value) (fallback : string) :
  fallback <> EmptyString -> messageOr v fallback <> EmptyString.
Proof.
  intros Hf. destruct v as [| | | |[|a s]|]; cbn [messageOr];
    try exact Hf; discriminate.
Qed.

(** X16. Whatever response the edit request gets, both versions of
    [ThumbnailEditor] end in one of two ways: [onEdit] is called with a truthy
    URL, which is the [imageUrl] of a response whose status is in 200-299, or
    an error message that is not empty is shown. *)
Theorem ThumbnailEditor_never_silent (response : Response) :
  (exists imageUrl,
     ThumbnailEditor_received (Answered response) = Edited imageUrl /\
     truthy imageUrl = true /\
     ok (code response) = true /\
     imageUrlField (body response) = imageUrl) \/
  (exists message,
     ThumbnailEditor_received (Answered response) = Failed message /\
     message <> EmptyString).
Proof.
  unfold ThumbnailEditor_received.
  destruct (ok (code response)) eqn:Hok; cbn [negb].
  - cbv zeta. destruct (truthy (imageUrlField (body response))) eqn:Hurl; cbn [negb].
    + left. eexists. repeat split. exact Hurl.
    + right. eexists. split; [reflexivity | discriminate].
  - right. eexists. split; [reflexivity|].
    apply messageOr_not_empty, append_not_empty, toString_not_empty.
Qed.

Section SessionFacts.

Variable ToString : value -> string.
Variable replicate : Replicate.
Variable toPng : string -> nat -> nat -> string.
Variable toDataURL : Bitmap.t -> string.

(** A request with a prompt, a picture and a mask, sent to a service that
    accepts it and reports success at poll [N] < 60, is answered 200 with
    the output of that poll. *)
Lemma POST_editor_request_succeeds (req : EditRequest.t) (id : string)
    (N : nat) (r : PollResult) (out : string) :
  EditRequest.prompt req <> EmptyString ->
  imageData toPng (EditRequest.image req) <> EmptyString ->
  toDataURL (EditRequest.mask req) <> EmptyString ->
  (forall input, create replicate input = inr id) ->
  (N < 60)%nat ->
  (forall k, (k < N)%nat -> exists r', get replicate id k = inr r' /\ pending r') ->
  get replicate id N = inr r ->
  succeeded_with (JStr out) r ->
  out <> EmptyString ->
  POST ToString replicate (Fields (wire (imageData toPng) toDataURL req))
  = {| code := 200; body := ImageBody (JStr out) |}.
Proof.
  intros Hp Hi Hm Hcreate HN Hpending Hget Hsucc Hout.
  rewrite POST_answers_editor_request.
  unfold wire, withoutSize.
  cbn [EditRequest.size EditRequest.prompt EditRequest.image EditRequest.mask].
  set (fields := <["prompt"%string := _]> _).
  assert (Hfp : field fields "prompt" = JStr (EditRequest.prompt req)) by reflexivity.
  assert (Hfi : field fields "image" = JStr (imageData toPng (EditRequest.image req)))
    by reflexivity.
  assert (Hfm : field fields "mask" = JStr (toDataURL (EditRequest.mask req)))
    by reflexivity.
  rewrite (POST_accepted ToString replicate fields id).
  - destruct (succeeded_with_first_output _ _ Hsucc) as (Herr & Hs & Hfirst).
    unfold maxAttempts. replace 60%nat with (N + S (59 - N))%nat by lia.
    rewrite pollLoop_pending.
    + rewrite (pollLoop_succeeded _ _ _ _ _ r Hget Herr Hs), Hfirst.
      destruct out; [congruence | reflexivity].
    + intros k Hk. apply Hpending. lia.
  - rewrite Hfp. destruct (EditRequest.prompt req); [congruence | reflexivity].
  - rewrite Hfi. destruct (imageData toPng _); [congruence | reflexivity].
  - rewrite Hfm. destruct (toDataURL _); [congruence | reflexivity].
  - apply Hcreate.
Qed.

Lemma submit_sent_succeeds (req : EditRequest.t) (id : string)
    (N : nat) (r : PollResult) (out : string) shown home :
  EditRequest.prompt req <> EmptyString ->
  imageData toPng (EditRequest.image req) <> EmptyString ->
  toDataURL (EditRequest.mask req) <> EmptyString ->
  (forall input, create replicate input = inr id) ->
  (N < 60)%nat ->
  (forall k, (k < N)%nat -> exists r', get replicate id k = inr r' /\ pending r') ->
  get replicate id N = inr r ->
  succeeded_with (JStr out) r ->
  out <> EmptyString ->
  submit ToString replicate toPng toDataURL ThumbnailEditor_received (Sent req) shown home
  = (None, Home.handleEditedImage (JStr out) home) /\
  submit ToString replicate toPng toDataURL ImageEditor_received (Sent req) shown home
  = (None, Home.handleEditedImage (JStr out) home).
Proof.
  intros Hp Hi Hm Hcreate HN Hpending Hget Hsucc Hout.
  unfold submit.
  rewrite (POST_editor_request_succeeds req id N r out) by assumption.
  destruct out; [congruence|]. split; reflexivity.
Qed.

End SessionFacts.



(** ** The generate route and the page *)

(** The two ways in which the handler ends: a thumbnail is stored and
    answered, or an error is answered and nothing is stored. *)
Lemma generate_POST_cases ToString replicate db (req : RequestBody) :
  (exists fields imageUrl id,
     req = Fields fields /\
     truthy (field fields "prompt") = true /\
     GenerateRoute.Thumbnail_create db (field fields "prompt") imageUrl = inr id /\
     GenerateRoute.POST ToString replicate db req
     = ({| GenerateRoute.code := 200;
           GenerateRoute.body := GenerateRoute.Generated imageUrl id |},
        Some (field fields "prompt", imageUrl))) \/
  (exists status message,
     (status = 400%nat \/ status = 500%nat) /\
     GenerateRoute.POST ToString replicate db req
     = ({| GenerateRoute.code := status;
           GenerateRoute.body := GenerateRoute.ErrorBody message |}, None)).
Proof.
  unfold GenerateRoute.POST, GenerateRoute.serverError.
  destruct req as [message|fields]; [right; eauto|].
  cbv zeta.
  destruct (truthy (field fields "prompt")) eqn:Hp; cbn [negb]; [|right; eauto].
  destruct (GenerateRoute.create replicate _) as [message|prediction]; [right; eauto|].
  destruct (GenerateRoute.wait replicate prediction) as [message|output]; [right; eauto|].
  destruct (GenerateRoute.truthyItem _); [|right; eauto].
  destruct (GenerateRoute.element0 output) as [v|[message|text]]; [|right; eauto|].
  - destruct (GenerateRoute.connectDB db) as [message|]; [right; eauto|].
    destruct (GenerateRoute.Thumbnail_create db _ v) as [message|id] eqn:Hcreate;
      [right; eauto|].
    left. exists fields, v, id. auto.
  - destruct (GenerateRoute.connectDB db) as [message|]; [right; eauto|].
    destruct (GenerateRoute.Thumbnail_create db _ (JStr text)) as [message|id] eqn:Hcreate;
      [right; eauto|].
    left. exists fields, (JStr text), id. auto.
Qed.

(** X18. The generate route answers 200 exactly when it has stored a
    thumbnail. What it stores is the prompt of the request as it came and
    the [imageUrl] of the response, whose [id] is the one the database gave;
    every request that stores nothing is answered 400 or 500 with an error
    message. *)
Theorem generate_stores_what_it_answers ToString replicate db (req : RequestBody) :
  match GenerateRoute.POST ToString replicate db req with
  | (response, Some (prompt, imageUrl)) =>
      exists fields id,
        req = Fields fields /\
        prompt = field fields "prompt" /\
        truthy prompt = true /\
        GenerateRoute.Thumbnail_create db prompt imageUrl = inr id /\
        response = {| GenerateRoute.code := 200;
                      GenerateRoute.body := GenerateRoute.Generated imageUrl id |}
  | (response, None) =>
      (GenerateRoute.code response = 400%nat \/ GenerateRoute.code response = 500%nat) /\
      exists message, GenerateRoute.body response = GenerateRoute.ErrorBody message
  end.
Proof.
  destruct (generate_POST_cases ToString replicate db req)
    as [(fields & imageUrl & id & Hreq & Hp & Hstore & ->)
       | (status & message & Hstatus & ->)].
  - exists fields, id. auto.
  - cbn. eauto.
Qed.



(** X20. The page after [generateThumbnail], with the generate route
    behind [fetch]: loading is over, and either a thumbnail was stored, the
    page shows the stored URL as it arrives over JSON and no error, or
    nothing was stored, the page keeps the picture it had and shows an error
    message that is not empty. The prompt and the editing flag stay. *)
Theorem generateThumbnail_outcome ToString replicate db (st : Home.State) :
  let served := GenerateRoute.POST ToString replicate db (Home.generateRequest st) in
  let st' := Home.generateThumbnail (Answered (fst served)) st in
  Home.loading st' = false /\
  Home.prompt st' = Home.prompt st /\
  Home.isEditing st' = Home.isEditing st /\
  ((exists imageUrl,
      snd served = Some (JStr (Home.prompt st), imageUrl) /\
      Home.generatedImage st' = overJSON imageUrl /\
      Home.error st' = None) \/
   (snd served = None /\
    Home.generatedImage st' = Home.generatedImage st /\
    exists message, Home.error st' = Some message /\ message <> EmptyString)).
Proof.
  cbv zeta.
  destruct (generate_POST_cases ToString replicate db (Home.generateRequest st))
    as [(fields & imageUrl & id & Hreq & _ & _ & ->)
       | (status & message & Hstatus & ->)].
  - injection Hreq as <-.
    cbn. repeat split. left. exists imageUrl. repeat split.
  - assert (Hok : ok status = false) by (destruct Hstatus as [-> | ->]; reflexivity).
    cbn. rewrite Hok. cbn. repeat split. right. repeat split.
    eexists. split; [reflexivity|].
    destruct message; discriminate.
Qed.

(** ** The saveMask route *)

(** X21. The upload of a mask preview: for a [maskData] that is a data URL
    [data:image/<format>;base64,<payload>], the handler decodes the payload
    alone and writes it to [mask_preview_<timestamp>.png] in the folder
    [public]; when the write succeeds it answers 200 with the path
    [/mask_preview_<timestamp>.png]. *)
Theorem saveMask_writes_payload ToString (Buffer : Type)
    (Buffer_from : string -> Buffer) cwd join writeFile
    (fields : gmap string value) (fmt payload : string) :
  fmt <> EmptyString -> DataUrl.all_word fmt = true ->
  fields !! "maskData"%string
  = Some (JStr ("data:image/" +:+ fmt +:+ ";base64," +:+ payload)) ->
  let filename :=
    "mask_preview_" +:+ template ToString (field fields "timestamp") +:+ ".png" in
  let filePath := join (join cwd "public"%string) filename in
  let served :=
    SaveMaskRoute.POST ToString Buffer Buffer_from cwd join writeFile (Fields fields) in
  snd served = Some (filePath, Buffer_from payload) /\
  (writeFile filePath (Buffer_from payload) = None ->
   fst served = {| SaveMaskRoute.code := 200;
                   SaveMaskRoute.body := SaveMaskRoute.Saved ("/" +:+ filename) |}).
Proof.
  intros Hne Hfmt Hmask. cbv zeta.
  unfold SaveMaskRoute.POST. cbv zeta.
  assert (Hfield : field fields "maskData"
                   = JStr ("data:image/" +:+ fmt +:+ ";base64," +:+ payload))
    by (unfold field; rewrite Hmask; reflexivity).
  rewrite Hfield.
  assert (Htruthy : truthy (JStr ("data:image/" +:+ fmt +:+ ";base64," +:+ payload)) = true)
    by reflexivity.
  rewrite Htruthy. cbn [negb].
  assert (Hstrip : DataUrl.stripPrefix ("data:image/" +:+ fmt +:+ ";base64," +:+ payload)
                   = payload).
  { destruct fmt as [|c fmt]; [congruence|].
    destruct (andb_prop _ _ Hfmt) as [Hc _].
    rewrite (stripPrefix_after c (fmt +:+ ";base64," +:+ payload));
      [| apply after_app | exact Hc].
    rewrite <- append_cons, after_format by exact Hfmt. reflexivity. }
  rewrite Hstrip.
  destruct (writeFile _ _) eqn:Hwrite; cbn [fst snd]; split;
    first [reflexivity | discriminate | intros _; reflexivity].
Qed.

Lemma saveMask_writes_payload_witness :
  SaveMaskRoute.POST plainToString string (fun text => text) "/srv/app"
    (fun a b => a +:+ "/" +:+ b) (fun _ _ => None)
    (Fields (<["timestamp"%string := JStr "1718000000000"]> {[ "maskData"%string := JStr "data:image/png;base64,iVBORw0KGgo=" ]}))
  = ({| SaveMaskRoute.code := 200;
        SaveMaskRoute.body := SaveMaskRoute.Saved "/mask_preview_1718000000000.png" |},
     Some ("/srv/app/public/mask_preview_1718000000000.png"%string, "iVBORw0KGgo="%string)).
Proof.
  pose proof (saveMask_writes_payload plainToString string (fun text => text)
                "/srv/app" (fun a b => a +:+ "/" +:+ b) (fun _ _ => None)
                (<["timestamp"%string := JStr "1718000000000"]> {[ "maskData"%string := JStr "data:image/png;base64,iVBORw0KGgo=" ]})
                "png" "iVBORw0KGgo=") as H.
  cbv zeta in H.
  destruct H as [Hwritten Hanswer]; [discriminate | reflexivity | reflexivity |].
  apply injective_projections.
  - apply Hanswer. reflexivity.
  - exact Hwritten.
Defined.
